(** * analyse_EPS: peak extraction, sampling and paired recording

    A shallow embedding of [scripts/optimization/analyse_EPS.py].

    Numbers.  The script computes with double precision floats; here every
    float is an exact rational ([Q]), so rounding, infinities and NaN are
    outside the model.  Physical quantities are kept, as Brian2 keeps them,
    as plain numbers in SI base units (volt, ampere, second, siemens).

    Errors.  Python exceptions are values of [exn]; a computation that may
    raise returns a [result]. *)

From Stdlib Require Import List ZArith QArith Qround Bool Lia String Ascii.
From Stdlib Require Import Permutation.
Import ListNotations.

Open Scope Q_scope.

(** ** Exceptions and fallible computations *)

Inductive exn : Type :=
| AssertionError
| NameError
| ValueError
| IndexError
| TypeError.

Inductive result (A : Type) : Type :=
| Ok (a : A)
| Raise (e : exn).

Arguments Ok {A} a.
Arguments Raise {A} e.

Definition bind {A B : Type} (m : result A) (k : A -> result B) : result B :=
  match m with
  | Ok a => k a
  | Raise e => Raise e
  end.

Notation "x <- m ;; k" := (bind m (fun x => k))
  (at level 61, m at next level, right associativity).

(** [assert c] of Python: raises [AssertionError] when [c] is false. *)
Definition assert (c : bool) : result unit :=
  if c then Ok tt else Raise AssertionError.

(** [try: body except: handler], with a bare [except] clause. *)
Definition try_except {A : Type} (body : result A) (handler : A) : A :=
  match body with
  | Ok a => a
  | Raise _ => handler
  end.

(** ** Numbers and truthiness *)

Definition Qltb (x y : Q) : bool := negb (Qle_bool y x).

(** A number is truthy when it is not zero. *)
Definition nonzero (x : Q) : bool := negb (Qeq_bool x 0).

(** An optional argument whose default is [None]: [None], or a number. *)
Definition truthy (o : option Q) : bool :=
  match o with
  | None => false
  | Some x => nonzero x
  end.

Definition is_None (o : option Q) : bool :=
  match o with
  | None => true
  | Some _ => false
  end.

(** ** The numpy operations the script uses, on one-dimensional arrays *)

(** [np.max a]: the largest element; a zero-size array raises ValueError. *)
Definition np_max (a : list Q) : result Q :=
  match a with
  | [] => Raise ValueError
  | x :: xs => Ok (fold_left (fun m y => if Qle_bool m y then y else m) xs x)
  end.

(** [m] is the largest element of [l]. *)
Definition maximum_of (l : list Q) (m : Q) : Prop :=
  In m l /\ forall x, In x l -> x <= m.

(** [np.where(mask)]: the positions at which the mask holds, ascending. *)
Fixpoint where_from (i : nat) (mask : list bool) : list nat :=
  match mask with
  | [] => []
  | b :: bs => if b then i :: where_from (S i) bs else where_from (S i) bs
  end.

Definition np_where (mask : list bool) : list nat := where_from 0 mask.

(** [a[idx]] for an index array: every index must be in range. *)
Fixpoint take_at (a : list Q) (idx : list nat) : result (list Q) :=
  match idx with
  | [] => Ok []
  | i :: rest =>
      match nth_error a i with
      | None => Raise IndexError
      | Some x => xs <- take_at a rest ;; Ok (x :: xs)
      end
  end.

(** ** Units (Brian2 quantities in SI base units) *)

Definition ms : Q := 1 # 1000.
Definition mV : Q := 1 # 1000.
Definition nS : Q := 1 # 1000000000.
Definition pA : Q := 1 # 1000000000000.

(** ** get_peak_EPSP *)

(** The mask [(250 < t_) & (t_ < 350)]. *)
Definition in_window (t : Q) : bool := Qltb 250 t && Qltb t 350.

Definition get_peak_EPSP (t_ EPSP : list Q) (i_hold v_hold : option Q)
  : result Q :=
  if truthy i_hold then
    _ <- assert (truthy v_hold) ;;
    sel <- take_at EPSP (np_where (map in_window t_)) ;;
    m <- np_max sel ;;
    match v_hold with
    | Some v => Ok (m - v)
    | None => Raise TypeError  (* a number minus None *)
    end
  else
    _ <- assert (is_None i_hold) ;;
    m <- np_max EPSP ;;
    (* the name Vrest_Pyr is bound nowhere in the module *)
    Raise NameError.

(** The samples of [EPSP] taken at times strictly between 250 and 350. *)
Definition window_sample (t_ EPSP : list Q) (x : Q) : Prop :=
  exists k t, nth_error t_ k = Some t /\ 250 < t /\ t < 350 /\
              nth_error EPSP k = Some x.

(** ** Command line: the number of weight samples *)

(** [argv[i]]: a missing position raises IndexError. *)
Definition argv_get (argv : list string) (i : nat) : result string :=
  match nth_error argv i with
  | Some a => Ok a
  | None => Raise IndexError
  end.

(** The [try: n = int(sys.argv[1]) / except: n = 500] of the script.  The
    builtin [int] is an argument: it returns the integer a string denotes or
    raises (ValueError). *)
Definition number_of_weights (int : string -> result Z) (argv : list string)
  : Z :=
  try_except (a <- argv_get argv 1 ;; int a) 500%Z.

(** A reading of the builtin [int] on [str]: blanks around an optional sign
    followed by one or more decimal digits. *)
Definition is_blank (c : ascii) : bool :=
  let n := nat_of_ascii c in
  (n =? 32)%nat || ((9 <=? n)%nat && (n <=? 13)%nat).

Definition digit_of (c : ascii) : option Z :=
  let n := nat_of_ascii c in
  if ((48 <=? n)%nat && (n <=? 57)%nat)%bool
  then Some (Z.of_nat (n - 48)) else None.

Fixpoint lstrip (s : list ascii) : list ascii :=
  match s with
  | c :: r => if is_blank c then lstrip r else s
  | [] => []
  end.

Definition strip (s : list ascii) : list ascii :=
  rev (lstrip (rev (lstrip s))).

Fixpoint digits (acc : Z) (s : list ascii) : result Z :=
  match s with
  | [] => Ok acc
  | c :: r =>
      match digit_of c with
      | Some d => digits (10 * acc + d)%Z r
      | None => Raise ValueError
      end
  end.

Definition unsigned_int (s : list ascii) : result Z :=
  match s with
  | [] => Raise ValueError
  | _ => digits 0%Z s
  end.

Definition py_int (s : string) : result Z :=
  match strip (list_ascii_of_string s) with
  | "-"%char :: r => n <- unsigned_int r ;; Ok (- n)%Z
  | "+"%char :: r => unsigned_int r
  | r => unsigned_int r
  end.

(** ** Two-dimensional arrays and the non-zero weights *)

Definition matrix : Type := list (list Q).

(** [m[r, c]] *)
Definition entry (m : matrix) (p : nat * nat) : option Q :=
  match nth_error m (fst p) with
  | Some row => nth_error row (snd p)
  | None => None
  end.

(** [np.nonzero m]: the positions of the non-zero entries, row by row. *)
Fixpoint nonzero_from (r : nat) (m : matrix) : list (nat * nat) :=
  match m with
  | [] => []
  | row :: rows =>
      map (fun c => (r, c)) (np_where (map nonzero row))
      ++ nonzero_from (S r) rows
  end.

Definition np_nonzero (m : matrix) : list (nat * nat) := nonzero_from 0 m.

(** [m[np.nonzero(m)]] *)
Definition index_positions (m : matrix) (ps : list (nat * nat)) : list Q :=
  flat_map (fun p => match entry m p with Some x => [x] | None => [] end) ps.

(** [load_wmx(pklf_name) * 1e9] *)
Definition to_nS (loaded : matrix) : matrix :=
  map (map (fun x => x * 1e9)) loaded.

Definition nonzero_weights (wmx_PC_E : matrix) : list Q :=
  index_positions wmx_PC_E (np_nonzero wmx_PC_E).

(** ** What the interpreter and numpy provide

    The two global random generators ([np.random] and the module [random]),
    the permutation numpy draws for a choice without replacement, and the
    transcendental functions, which are not rational. *)

Class Interpreter : Type := {
  np_state : Type;
  py_state : Type;
  np_seed : Z -> np_state;
  py_seed : Z -> py_state;
  (** [np.random.permutation(n)]: a shuffled [range(n)] *)
  np_permutation : nat -> np_state -> list nat * np_state;
  np_permutation_perm :
    forall n s, Permutation (fst (np_permutation n s)) (seq 0 n);
  np_exp : Q -> Q;
  np_log : Q -> Q
}.

(** The mutable state shared by every call: the state of each generator. *)
Record world `{Interpreter} : Type := {
  np_random : np_state;
  py_random : py_state
}.

Section Random.
Context `{Interpreter}.

(** [np.random.seed(seed)] *)
Definition np_random_seed (seed : Z) (g : world) : world :=
  {| np_random := np_seed seed; py_random := py_random g |}.

(** [pyrandom.seed(seed)] *)
Definition pyrandom_seed (seed : Z) (g : world) : world :=
  {| np_random := np_random g; py_random := py_seed seed |}.

(** The positions [np.random.choice(a, size, replace=False)] takes: the
    first [size] entries of a permutation of the population's positions.
    A negative size, an empty population and a sample larger than the
    population raise ValueError. *)
Definition choice_positions (pop_size : nat) (size : Z) (g : world)
  : result (list nat * world) :=
  if (size <? 0)%Z then Raise ValueError
  else if (pop_size =? 0)%nat then Raise ValueError
  else if (Z.of_nat pop_size <? size)%Z then Raise ValueError
  else
    let (perm, s) := np_permutation pop_size (np_random g) in
    Ok (firstn (Z.to_nat size) perm,
        {| np_random := s; py_random := py_random g |}).

Definition np_random_choice (a : list Q) (size : Z) (g : world)
  : result (list Q * world) :=
  r <- choice_positions (List.length a) size g ;;
  Ok (map (fun i => nth i a 0) (fst r), snd r).

(** [np.random.seed(12345); weights = np.random.choice(nonzero_weights, n,
    replace=False)] *)
Definition sample_weights (wmx_PC_E : matrix) (n : Z) (g : world)
  : result (list Q * world) :=
  np_random_choice (nonzero_weights wmx_PC_E) n (np_random_seed 12345 g).
End Random.

(** ** Synaptic and cell parameters *)

Definition rise_PC_E : Q := 1.3 * ms.
Definition decay_PC_E : Q := 9.5 * ms.
Definition delay_PC_E : Q := 2.2 * ms.
Definition Erev_E : Q := 0.0 * mV.
Definition z : Q := 1 * nS.
Definition g_leak_PC : Q := 4.31475791937223 * nS.
Definition tau_mem_PC : Q := 41.7488927175169 * ms.
Definition Cm_PC : Q := tau_mem_PC * g_leak_PC.
Definition Vrest_PC : Q := -75.1884554193901 * mV.
Definition Vreset_PC : Q := -29.738747396665072 * mV.
Definition theta_PC : Q := -24.4255910105977 * mV.
Definition tref_PC : Q := 5.96326930945599 * ms.
Definition delta_T_PC : Q := 4.2340696257631 * mV.
Definition spike_th_PC : Q := theta_PC + 5 * delta_T_PC.
Definition a_PC : Q := -0.274347065652738 * nS.
Definition b_PC : Q := 206.841448096415 * pA.
Definition tau_w_PC : Q := 84.9358017225512 * ms.

Section Norm.
Context `{Interpreter}.

(** time to peak *)
Definition tp : Q :=
  (decay_PC_E * rise_PC_E) / (decay_PC_E - rise_PC_E)
  * np_log (decay_PC_E / rise_PC_E).

Definition norm_PC_E : Q :=
  1.0 / (np_exp (- tp / decay_PC_E) - np_exp (- tp / rise_PC_E)).
End Norm.

(** ** The simulated circuit

    One postsynaptic cell (the variables of [eqs_PC]), a presynaptic spike
    generator, one synapse and a monitor, advanced by Brian2 one clock step
    at a time. *)

Record cell : Type := {
  vm : Q;                (* volt *)
  w : Q;                 (* amp *)
  g_ampa : Q;
  x_ampa : Q;
  I : Q;                 (* amp *)
  lastspike : option Q;  (* second; None before the first spike *)
  not_refractory : bool
}.

(** The subexpression [EPSC = -g_ampa*z*(vm-Erev_E)] of [eqs_PC]. *)
Definition EPSC_of (c : cell) : Q := - g_ampa c * z * (vm c - Erev_E).

(** The integrator Brian2 generates from the differential equations of
    [eqs_PC] with [method="exponential_euler"], for one step at time [t]; it
    also maintains [not_refractory].  It runs in the interpreter and may use
    its generators. *)
Class Brian2 `{Interpreter} : Type := {
  state_update : Q -> cell -> world -> cell * world
}.

(** One recorded row of [StateMonitor(PC, variables=["vm", "EPSC"])]. *)
Record sample : Type := {
  sample_t : Q;     (* second *)
  sample_vm : Q;    (* volt *)
  sample_EPSC : Q   (* amp *)
}.

Record network : Type := {
  PC : cell;
  timestep : nat;            (* the clock: t = timestep * dt *)
  queue : list nat;          (* steps at which a presynaptic spike arrives *)
  StateM_PC : list sample    (* oldest first *)
}.

Definition defaultclock_dt : Q := 0.1 * ms.

(** [dt=0.1*ms] of the monitor *)
Definition StateM_dt : Q := 0.1 * ms.

(** Whole clock steps in a duration. *)
Definition timesteps (duration : Q) : nat :=
  Z.to_nat (Qfloor (duration / defaultclock_dt)).

Definition clock_t (k : nat) : Q := inject_Z (Z.of_nat k) * defaultclock_dt.

(** [SpikeGeneratorGroup(1, np.array([0]), np.array([250])*ms)] *)
Definition pre_spike_step : nat := timesteps (250 * ms).

(** What the monitor reads off the circuit at the start of a step. *)
Definition observe (net : network) : sample :=
  {| sample_t := clock_t (timestep net); sample_vm := vm (PC net);
     sample_EPSC := EPSC_of (PC net) |}.

(** The step at which the spike of [pre], emitted at 250 ms, reaches the
    synapse after [delay_PC_E]. *)
Definition arrival_step : nat := (pre_spike_step + timesteps delay_PC_E)%nat.

(** Every spike still on its way is due at [arrival_step]. *)
Definition queue_pending (net : network) : Prop :=
  forall due, In due (queue net) -> due = arrival_step.

Definition with_PC (net : network) (c : cell) : network :=
  {| PC := c; timestep := timestep net; queue := queue net;
     StateM_PC := StateM_PC net |}.

Definition set_I (i : Q) (c : cell) : cell :=
  {| vm := vm c; w := w c; g_ampa := g_ampa c; x_ampa := x_ampa c; I := i;
     lastspike := lastspike c; not_refractory := not_refractory c |}.

Section Simulation.
Context `{Brian2}.

(** [on_pre="x_ampa+=norm_PC_E*weight"] *)
Definition on_pre (weight : Q) (c : cell) : cell :=
  {| vm := vm c; w := w c; g_ampa := g_ampa c;
     x_ampa := x_ampa c + norm_PC_E * weight; I := I c;
     lastspike := lastspike c; not_refractory := not_refractory c |}.

(** [threshold="vm>spike_th_PC"], while not refractory *)
Definition spikes (c : cell) : bool :=
  Qltb spike_th_PC (vm c) && not_refractory c.

(** [reset="vm=Vreset_PC; w+=b_PC"]; the spike time is noted for
    [refractory=tref_PC]. *)
Definition reset (t : Q) (c : cell) : cell :=
  {| vm := Vreset_PC; w := w c + b_PC; g_ampa := g_ampa c;
     x_ampa := x_ampa c; I := I c;
     lastspike := Some t; not_refractory := false |}.

(** One clock step, in Brian2's schedule: start (the monitor records),
    groups (state update), thresholds, synapses, resets. *)
Definition step (weight : Q) (st : network * world) : network * world :=
  let (net, g) := st in
  let k := timestep net in
  let t := clock_t k in
  let rec :=
    if (k mod timesteps StateM_dt =? 0)%nat
    then StateM_PC net ++ [observe net]
    else StateM_PC net in
  let (c1, g1) := state_update t (PC net) g in
  let fired := spikes c1 in
  let q :=
    if (k =? pre_spike_step)%nat
    then queue net ++ [ (k + timesteps delay_PC_E)%nat ]
    else queue net in
  let c2 :=
    fold_left (fun c due => if (due =? k)%nat then on_pre weight c else c)
      q c1 in
  let c3 := if fired then reset t c2 else c2 in
  ({| PC := c3; timestep := S k;
      queue := filter (fun due => negb (due =? k)%nat) q;
      StateM_PC := rec |}, g1).

Fixpoint run_steps (n : nat) (weight : Q) (st : network * world)
  : network * world :=
  match n with
  | O => st
  | S n' => run_steps n' weight (step weight st)
  end.

(** [run(duration)] *)
Definition run (duration : Q) (weight : Q) (st : network * world)
  : network * world :=
  run_steps (timesteps duration) weight st.

(** [PC.vm = Vrest_PC; PC.g_ampa = 0.0]; every other variable starts at
    zero. *)
Definition initial_network : network :=
  {| PC := {| vm := Vrest_PC; w := 0; g_ampa := 0.0; x_ampa := 0; I := 0;
              lastspike := None; not_refractory := true |};
     timestep := 0; queue := []; StateM_PC := [] |}.

(** The circuit after both runs, and the state of the generators. *)
Definition recorded (weight : Q) (i_hold : option Q) (g : world)
  : network * world :=
  let g := np_random_seed 12345 g in
  let g := pyrandom_seed 12345 g in
  let st := run (10 * ms) weight (initial_network, g) in
  let st :=
    if truthy i_hold then
      match i_hold with
      | Some i => (with_PC (fst st) (set_I (i * pA) (PC (fst st))), snd st)
      | None => st
      end
    else st in
  run (390 * ms) weight st.

(** The circuit between the two runs. *)
Definition between_runs (weight : Q) (i_hold : option Q) (g : world)
  : network * world :=
  let st :=
    run (10 * ms) weight
      (initial_network, pyrandom_seed 12345 (np_random_seed 12345 g)) in
  if truthy i_hold then
    match i_hold with
    | Some i => (with_PC (fst st) (set_I (i * pA) (PC (fst st))), snd st)
    | None => st
    end
  else st.

(** [return StateM_PC.t_ * 1000, StateM_PC[0].vm/mV, StateM_PC[0].EPSC/pA] *)
Definition sym_paired_recording (weight : Q) (i_hold : option Q) (g : world)
  : (list Q * list Q * list Q) * world :=
  let (net, g') := recorded weight i_hold g in
  ((map (fun s => sample_t s * 1000) (StateM_PC net),
    map (fun s => sample_vm s / mV) (StateM_PC net),
    map (fun s => sample_EPSC s / pA) (StateM_PC net)), g').
End Simulation.

(** ** The script: per-trial traces and peaks *)

Definition v_hold : Q := -70.   (* mV *)
Definition i_hold : Q := 20.967. (* pA *)

(** The hard coded number of samples of a trace. *)
Definition sim_length : nat := 4000.

(** [np.zeros(n)] and [np.zeros((n, width))]; a negative dimension raises
    ValueError. *)
Definition np_zeros (n : Z) : result (list Q) :=
  if (n <? 0)%Z then Raise ValueError else Ok (repeat 0 (Z.to_nat n)).

Definition np_zeros2 (n : Z) (width : nat) : result matrix :=
  if (n <? 0)%Z then Raise ValueError
  else Ok (repeat (repeat 0 width) (Z.to_nat n)).

(** [a[i] = x] *)
Definition set_item {A : Type} (a : list A) (i : nat) (x : A)
  : result (list A) :=
  if (i <? List.length a)%nat
  then Ok (firstn i a ++ x :: skipn (S i) a)
  else Raise IndexError.

(** [m[i,:] = row]: the row must have the width of the matrix, or one
    element, which is then repeated. *)
Definition set_row (m : matrix) (i : nat) (row : list Q) : result matrix :=
  match nth_error m i with
  | None => Raise IndexError
  | Some old =>
      if (List.length row =? List.length old)%nat then set_item m i row
      else
        match row with
        | [x] => set_item m i (repeat x (List.length old))
        | _ => Raise ValueError
        end
  end.

(** [np.mean a] *)
Definition np_mean (a : list Q) : Q :=
  fold_left Qplus a 0 / inject_Z (Z.of_nat (List.length a)).

Record results : Type := {
  EPSPs : matrix;
  EPSCs : matrix;
  peak_EPSPs : list Q;
  peak_EPSCs : list Q
}.

(** The arrays of the script: [n] rows of [sim_length] samples, [n] peaks. *)
Definition shaped (n : nat) (out : results) : Prop :=
  List.length (EPSPs out) = n /\ List.length (EPSCs out) = n /\
  List.length (peak_EPSPs out) = n /\ List.length (peak_EPSCs out) = n /\
  (forall j row, nth_error (EPSPs out) j = Some row ->
                 List.length row = sim_length) /\
  (forall j row, nth_error (EPSCs out) j = Some row ->
                 List.length row = sim_length).

(** [m] is the largest sample of a trace among the rows 2501 to 3499, those
    taken at times strictly between 250 and 350. *)
Definition window_peak (row : list Q) (m : Q) : Prop :=
  (exists k, (2500 < k < 3500)%nat /\ nth_error row k = Some m) /\
  forall k x, (2500 < k < 3500)%nat -> nth_error row k = Some x -> x <= m.

Section Script.
Context `{Brian2}.

(** The EPSC trace of the trial made with a weight. *)
Definition trial_EPSC (weight : Q) (g : world) : list Q :=
  snd (fst (sym_paired_recording weight (Some i_hold) g)).

(** The EPSP trace of the trial made with a weight. *)
Definition trial_EPSP (weight : Q) (g : world) : list Q :=
  snd (fst (fst (sym_paired_recording weight (Some i_hold) g))).

(** What the loop has stored for a trial. *)
Definition stored (out : results) (i : nat) (weight : Q) (g : world) : Prop :=
  exists mP mC,
    nth_error (EPSPs out) i = Some (trial_EPSP weight g) /\
    nth_error (EPSCs out) i = Some (trial_EPSC weight g) /\
    nth_error (peak_EPSPs out) i = Some (mP - v_hold) /\
    nth_error (peak_EPSCs out) i = Some mC /\
    window_peak (trial_EPSP weight g) mP /\
    np_max (trial_EPSC weight g) = Ok mC.

(** The body of [for i, weight in enumerate(weights)]. *)
Definition trial (i : nat) (weight : Q) (out : results) (g : world)
  : result (results * world) :=
  let '(t_, EPSP, EPSC, g') := sym_paired_recording weight (Some i_hold) g in
  rows_P <- set_row (EPSPs out) i EPSP ;;
  rows_C <- set_row (EPSCs out) i EPSC ;;
  peak_P <- get_peak_EPSP t_ EPSP (Some i_hold) (Some v_hold) ;;
  peaks_P <- set_item (peak_EPSPs out) i peak_P ;;
  peak_C <- np_max EPSC ;;
  peaks_C <- set_item (peak_EPSCs out) i peak_C ;;
  Ok ({| EPSPs := rows_P; EPSCs := rows_C;
         peak_EPSPs := peaks_P; peak_EPSCs := peaks_C |}, g').

Fixpoint trials (i : nat) (weights : list Q) (out : results) (g : world)
  : result (results * world) :=
  match weights with
  | [] => Ok (out, g)
  | weight :: rest =>
      r <- trial i weight out g ;;
      trials (S i) rest (fst r) (snd r)
  end.

(** The arrays allocated before the loop. *)
Definition allocate (n : Z) : result results :=
  P <- np_zeros2 n sim_length ;;
  C <- np_zeros2 n sim_length ;;
  p <- np_zeros n ;;
  c <- np_zeros n ;;
  Ok {| EPSPs := P; EPSCs := C; peak_EPSPs := p; peak_EPSCs := c |}.

(** The block under [if __name__ == "__main__"], up to the plots: the
    per-trial arrays and the traces for the mean weight. *)
Definition main (int : string -> result Z) (argv : list string)
  (loaded : matrix) (g : world)
  : result (results * (list Q * list Q * list Q) * world) :=
  let n := number_of_weights int argv in
  let wmx_PC_E := to_nS loaded in
  r <- sample_weights wmx_PC_E n g ;;
  out0 <- allocate n ;;
  r' <- trials 0 (fst r) out0 (snd r) ;;
  let (avg, g') :=
    sym_paired_recording (np_mean (nonzero_weights wmx_PC_E))
      (Some i_hold) (snd r') in
  Ok (fst r', avg, g').
End Script.

(** ** An instance, for running the model

    Coarse rational stand-ins for the library parts: generators that count,
    a rotation as the permutation, low order series for [exp] and [log] and
    a forward Euler step of [eqs_PC]. *)

Definition rotation (n : nat) (s : Z) : list nat :=
  let k := Z.to_nat (s mod Z.of_nat n) in
  skipn k (seq 0 n) ++ firstn k (seq 0 n).

Definition series_exp (x : Q) : Q := Qred (1 + x + x * x / 2).

Definition series_log (x : Q) : Q := Qred (2 * (x - 1) / (x + 1)).

Definition euler_cell (t : Q) (c : cell) : cell :=
  let dt := defaultclock_dt in
  let free :=
    match lastspike c with
    | Some t0 => Qle_bool tref_PC (t - t0)
    | None => true
    end in
  let dvm :=
    (- g_leak_PC * (vm c - Vrest_PC)
     + g_leak_PC * delta_T_PC * series_exp ((vm c - theta_PC) / delta_T_PC)
     - w c + I c + EPSC_of c) / Cm_PC in
  {| vm := if free then Qred (vm c + dt * dvm) else vm c;
     w := Qred (w c + dt * ((a_PC * (vm c - Vrest_PC) - w c) / tau_w_PC));
     g_ampa := Qred (g_ampa c + dt * ((x_ampa c - g_ampa c) / rise_PC_E));
     x_ampa := Qred (x_ampa c + dt * (- x_ampa c / decay_PC_E));
     I := I c; lastspike := lastspike c; not_refractory := free |}.

(** * Properties *)

(** ** Comparison and maximum *)

Lemma Qltb_lt (x y : Q) : Qltb x y = true <-> x < y.
Proof.
  unfold Qltb. rewrite negb_true_iff. split; intro H.
  - apply Qnot_le_lt. intro L. apply Qle_bool_iff in L. congruence.
  - destruct (Qle_bool y x) eqn:E; [|reflexivity].
    apply Qle_bool_iff in E. exfalso. exact (Qlt_not_le _ _ H E).
Qed.

Lemma in_window_iff (t : Q) : in_window t = true <-> 250 < t /\ t < 350.
Proof.
  unfold in_window. rewrite andb_true_iff, !Qltb_lt. tauto.
Qed.

Lemma fold_max_spec (xs : list Q) (x : Q) :
  maximum_of (x :: xs)
    (fold_left (fun m y => if Qle_bool m y then y else m) xs x).
Proof.
  revert x. induction xs as [|y ys IH]; intro x; simpl.
  - split; [now left|]. intros x0 [<-|[]]. apply Qle_refl.
  - destruct (Qle_bool x y) eqn:E.
    + destruct (IH y) as [Hin Hub]. split.
      * simpl in Hin. simpl. tauto.
      * intros x0 [<-|Hx].
        -- apply Qle_trans with y; [now apply Qle_bool_iff|].
           apply Hub. now left.
        -- apply Hub. exact Hx.
    + destruct (IH x) as [Hin Hub]. split.
      * simpl in Hin. simpl. tauto.
      * intros x0 [<-|[<-|Hx]].
        -- apply Hub. now left.
        -- apply Qle_trans with x; [|apply Hub; now left].
           apply Qlt_le_weak, Qnot_le_lt. intro L.
           apply Qle_bool_iff in L. congruence.
        -- apply Hub. now right.
Qed.

Lemma np_max_spec (a : list Q) :
  a <> [] -> exists m, np_max a = Ok m /\ maximum_of a m.
Proof.
  destruct a as [|x xs]; [congruence|]. intros _.
  eexists. split; [reflexivity|]. apply fold_max_spec.
Qed.

(** ** Masks and index arrays *)

Lemma where_from_In (mask : list bool) (i k : nat) :
  In k (where_from i mask) <->
  exists j, k = (i + j)%nat /\ nth_error mask j = Some true.
Proof.
  revert i. induction mask as [|b bs IH]; intro i; simpl.
  - split; [tauto|]. intros [j [_ Hj]]. destruct j; discriminate.
  - assert (Hrec : In k (where_from (S i) bs) <->
                   exists j, k = (i + S j)%nat /\ nth_error bs j = Some true).
    { rewrite IH. split; intros [j [E Hj]]; exists j; split; trivial; lia. }
    destruct b; simpl; rewrite Hrec; split.
    + intros [<-|[j [E Hj]]].
      * exists 0%nat. split; [lia|reflexivity].
      * exists (S j). now split.
    + intros [[|j] [E Hj]].
      * left. lia.
      * right. exists j. now split.
    + intros [j [E Hj]]. exists (S j). now split.
    + intros [[|j] [E Hj]]; [discriminate|]. exists j. now split.
Qed.

Lemma np_where_In (mask : list bool) (k : nat) :
  In k (np_where mask) <-> nth_error mask k = Some true.
Proof.
  unfold np_where. rewrite where_from_In. split.
  - intros [j [-> Hj]]. exact Hj.
  - intro Hk. now exists k.
Qed.

Lemma take_at_spec (a : list Q) (idx : list nat) :
  (forall k, In k idx -> (k < List.length a)%nat) ->
  exists sel, take_at a idx = Ok sel /\
    forall x, In x sel <-> exists k, In k idx /\ nth_error a k = Some x.
Proof.
  induction idx as [|i rest IH]; intro Hrange; simpl.
  - exists []. split; [reflexivity|]. intro x. split; [intros []|].
    intros [k [[] _]].
  - destruct (nth_error a i) as [y|] eqn:Ei.
    + destruct IH as [sel [E Hsel]].
      { intros k Hk. apply Hrange. now right. }
      rewrite E. simpl. exists (y :: sel). split; [reflexivity|].
      intro x. simpl. rewrite Hsel. split.
      * intros [<-|[k [Hk Ek]]].
        -- exists i. split; [now left|exact Ei].
        -- exists k. split; [now right|exact Ek].
      * intros [k [[<-|Hk] Ek]].
        -- left. congruence.
        -- right. now exists k.
    + apply nth_error_None in Ei.
      specialize (Hrange i (or_introl eq_refl)). lia.
Qed.

(** ** get_peak_EPSP *)

Lemma window_selection (t_ EPSP : list Q) :
  (forall k t, nth_error t_ k = Some t -> 250 < t -> t < 350 ->
               (k < List.length EPSP)%nat) ->
  exists sel, take_at EPSP (np_where (map in_window t_)) = Ok sel /\
    forall x, In x sel <-> window_sample t_ EPSP x.
Proof.
  intro Hrange.
  destruct (take_at_spec EPSP (np_where (map in_window t_))) as [sel [E Hsel]].
  - intros k Hk. apply np_where_In in Hk. rewrite nth_error_map in Hk.
    destruct (nth_error t_ k) as [t|] eqn:Et; [|discriminate].
    simpl in Hk. injection Hk as Hk. apply in_window_iff in Hk.
    exact (Hrange k t Et (proj1 Hk) (proj2 Hk)).
  - exists sel. split; [exact E|]. intro x. rewrite Hsel.
    unfold window_sample. split.
    + intros [k [Hk Ek]]. apply np_where_In in Hk.
      rewrite nth_error_map in Hk.
      destruct (nth_error t_ k) as [t|] eqn:Et; [|discriminate].
      simpl in Hk. injection Hk as Hk. apply in_window_iff in Hk.
      exists k, t. tauto.
    + intros [k [t [Et [H1 [H2 Ek]]]]]. exists k. split; [|exact Ek].
      apply np_where_In. rewrite nth_error_map, Et. simpl. f_equal.
      apply in_window_iff. tauto.
Qed.

Lemma clamped_peak_in_range (t_ EPSP : list Q) (i v : Q) :
  nonzero i = true -> nonzero v = true ->
  (forall k t, nth_error t_ k = Some t -> 250 < t -> t < 350 ->
               (k < List.length EPSP)%nat) ->
  (exists k t, nth_error t_ k = Some t /\ 250 < t /\ t < 350) ->
  exists m,
    get_peak_EPSP t_ EPSP (Some i) (Some v) = Ok (m - v) /\
    window_sample t_ EPSP m /\
    forall x, window_sample t_ EPSP x -> x <= m.
Proof.
  intros Hi Hv Hrange [k [t [Et [H1 H2]]]].
  destruct (window_selection t_ EPSP Hrange) as [sel [Esel Hsel]].
  assert (Hne : sel <> []).
  { pose proof (Hrange k t Et H1 H2) as Hk.
    destruct (nth_error EPSP k) as [x|] eqn:Ex;
      [|apply nth_error_None in Ex; lia].
    assert (Hin : In x sel) by (apply Hsel; exists k, t; tauto).
    intro E0. rewrite E0 in Hin. exact Hin. }
  destruct (np_max_spec sel Hne) as [m [Em [Hin Hub]]].
  exists m. split; [|split].
  - unfold get_peak_EPSP. simpl. rewrite Hi, Hv. simpl.
    rewrite Esel. simpl. rewrite Em. reflexivity.
  - apply Hsel. exact Hin.
  - intros x Hx. apply Hub, Hsel. exact Hx.
Qed.

(** On a trace that pairs every time with one sample. *)
Lemma clamped_peak (t_ EPSP : list Q) (i v : Q) :
  nonzero i = true -> nonzero v = true ->
  List.length t_ = List.length EPSP ->
  (exists k t, nth_error t_ k = Some t /\ 250 < t /\ t < 350) ->
  exists m,
    get_peak_EPSP t_ EPSP (Some i) (Some v) = Ok (m - v) /\
    window_sample t_ EPSP m /\
    forall x, window_sample t_ EPSP x -> x <= m.
Proof.
  intros Hi Hv Hlen Hwin.
  apply (clamped_peak_in_range t_ EPSP i v Hi Hv); [|exact Hwin].
  intros k t Et _ _. rewrite <- Hlen. apply nth_error_Some. congruence.
Qed.

(** C2, as stated, fails: a time inside the window is not enough when
    [EPSP] has no sample at its position.  With the single time 300 and an
    empty [EPSP] the indexing raises IndexError. *)
Lemma clamped_peak_needs_the_samples :
  get_peak_EPSP [300] [] (Some i_hold) (Some v_hold) = Raise IndexError /\
  ~ (forall (t_ EPSP : list Q) (i v : Q),
       nonzero i = true -> nonzero v = true ->
       (exists k t, nth_error t_ k = Some t /\ 250 < t /\ t < 350) ->
       exists m,
         get_peak_EPSP t_ EPSP (Some i) (Some v) = Ok (m - v) /\
         window_sample t_ EPSP m /\
         forall x, window_sample t_ EPSP x -> x <= m).
Proof.
  split; [reflexivity|]. intro Hclaim.
  destruct (Hclaim [300] [] i_hold v_hold eq_refl eq_refl) as [m [E _]].
  - exists 0%nat, 300. split; [reflexivity|]. split; reflexivity.
  - discriminate E.
Qed.

(** C2, amended: with a truthy holding current and a truthy holding voltage,
    a time inside the window, and a sample in [EPSP] at the position of
    every time inside the window, the peak is the largest EPSP sample taken
    at a time strictly between 250 and 350, minus the holding voltage.
    [EPSP] may be longer or shorter than the time array. *)
Theorem get_peak_EPSP_clamped (t_ EPSP : list Q) (i v : Q) :
  nonzero i = true -> nonzero v = true ->
  (forall k t, nth_error t_ k = Some t -> 250 < t -> t < 350 ->
               (k < List.length EPSP)%nat) ->
  (exists k t, nth_error t_ k = Some t /\ 250 < t /\ t < 350) ->
  exists m,
    get_peak_EPSP t_ EPSP (Some i) (Some v) = Ok (m - v) /\
    window_sample t_ EPSP m /\
    forall x, window_sample t_ EPSP x -> x <= m.
Proof.
  intros Hi Hv Hrange Hwin.
  exact (clamped_peak_in_range t_ EPSP i v Hi Hv Hrange Hwin).
Qed.

Lemma get_peak_EPSP_clamped_example :
  exists m,
    get_peak_EPSP [249.9; 250; 250.1; 300; 349.9; 350] [9; 8; -69; -65; -68]
      (Some i_hold) (Some v_hold) = Ok (m - v_hold) /\
    window_sample [249.9; 250; 250.1; 300; 349.9; 350] [9; 8; -69; -65; -68] m /\
    forall x,
      window_sample [249.9; 250; 250.1; 300; 349.9; 350]
        [9; 8; -69; -65; -68] x -> x <= m.
Proof.
  apply (get_peak_EPSP_clamped
           [249.9; 250; 250.1; 300; 349.9; 350] [9; 8; -69; -65; -68]
           i_hold v_hold).
  - reflexivity.
  - reflexivity.
  - intros [|[|[|[|[|[|k]]]]]] t Ht H1 H2; simpl in Ht;
      try (simpl; lia); try discriminate Ht.
    + injection Ht as <-. exfalso. revert H2. now vm_compute.
    + destruct k; discriminate Ht.
  - exists 3%nat, 300. split; [reflexivity|]. split; reflexivity.
Defined.

(** On that trace the peak is [-65 - (-70)]: the samples 9, 8 and 7 lie
    outside the open window. *)
Example get_peak_EPSP_runs :
  get_peak_EPSP [249.9; 250; 250.1; 300; 349.9; 350] [9; 8; -69; -65; -68; 7]
    (Some i_hold) (Some v_hold) = Ok (-65 - v_hold).
Proof. reflexivity. Qed.

(** C1: a holding current without a holding voltage fails an assertion, but
    a holding voltage without a holding current never does: the second
    assertion tests [i_hold is None], which holds, and the call goes on to
    the unbound name (or, on an empty trace, to [np.max]). *)
Theorem get_peak_EPSP_lone_argument :
  (forall t_ EPSP i,
      get_peak_EPSP t_ EPSP (Some i) None = Raise AssertionError) /\
  (forall t_ EPSP v,
      get_peak_EPSP t_ EPSP None (Some v) <> Raise AssertionError) /\
  get_peak_EPSP [300] [-69] None (Some v_hold) = Raise NameError.
Proof.
  split; [|split].
  - intros t_ EPSP i. unfold get_peak_EPSP. simpl.
    destruct (nonzero i); reflexivity.
  - intros t_ EPSP v. unfold get_peak_EPSP. simpl.
    destruct EPSP; simpl; discriminate.
  - reflexivity.
Qed.

(** C8, as stated, fails: on an empty trace the left operand [np.max(EPSP)]
    raises ValueError before the unbound name is looked up. *)
Lemma empty_trace_is_not_NameError :
  ~ (forall t_ EPSP, get_peak_EPSP t_ EPSP None None = Raise NameError).
Proof.
  intro H. specialize (H [] []). discriminate H.
Qed.

(** C8, amended: without holding current and voltage the call raises
    NameError on every non-empty trace, ValueError on the empty one, and
    never returns a value. *)
Theorem get_peak_EPSP_unclamped (t_ EPSP : list Q) :
  (EPSP <> [] -> get_peak_EPSP t_ EPSP None None = Raise NameError) /\
  (EPSP = [] -> get_peak_EPSP t_ EPSP None None = Raise ValueError) /\
  (forall r, get_peak_EPSP t_ EPSP None None <> Ok r).
Proof.
  unfold get_peak_EPSP. simpl. destruct EPSP as [|x xs]; simpl.
  - split; [congruence|]. split; [reflexivity|discriminate].
  - split; [reflexivity|]. split; [discriminate|discriminate].
Qed.

Lemma get_peak_EPSP_unclamped_example :
  get_peak_EPSP [299.9; 300] [-70; -69] None None = Raise NameError /\
  get_peak_EPSP [] [] None None = Raise ValueError.
Proof.
  split.
  - apply (get_peak_EPSP_unclamped [299.9; 300] [-70; -69]). discriminate.
  - apply (get_peak_EPSP_unclamped [] []). reflexivity.
Defined.

(** ** The command line *)

(** C3: without a first argument, or with one that [int] rejects, the number
    of weights is 500; otherwise it is the integer [int] returns. *)
Theorem number_of_weights_spec (int : string -> result Z)
  (argv : list string) :
  (nth_error argv 1 = None -> number_of_weights int argv = 500%Z) /\
  (forall a e, nth_error argv 1 = Some a -> int a = Raise e ->
               number_of_weights int argv = 500%Z) /\
  (forall a k, nth_error argv 1 = Some a -> int a = Ok k ->
               number_of_weights int argv = k).
Proof.
  unfold number_of_weights, argv_get.
  split; [|split].
  - intros ->. reflexivity.
  - intros a e -> E. simpl. rewrite E. reflexivity.
  - intros a k -> E. simpl. rewrite E. reflexivity.
Qed.

Lemma number_of_weights_example :
  number_of_weights py_int ["analyse_EPS.py"%string] = 500%Z /\
  number_of_weights py_int ["analyse_EPS.py"; "5o0"]%string = 500%Z /\
  number_of_weights py_int ["analyse_EPS.py"; " 120"; "7"]%string = 120%Z.
Proof.
  split; [|split].
  - apply (number_of_weights_spec py_int ["analyse_EPS.py"%string]).
    reflexivity.
  - apply (proj1 (proj2 (number_of_weights_spec py_int
                           ["analyse_EPS.py"; "5o0"]%string))
             "5o0"%string ValueError); reflexivity.
  - apply (proj2 (proj2 (number_of_weights_spec py_int
                           ["analyse_EPS.py"; " 120"; "7"]%string))
             " 120"%string 120%Z); reflexivity.
Defined.

(** ** The positions of the non-zero weights *)

Lemma where_from_NoDup (mask : list bool) (i : nat) :
  NoDup (where_from i mask).
Proof.
  revert i. induction mask as [|b bs IH]; intro i; simpl; [constructor|].
  destruct b; [|apply IH]. constructor; [|apply IH].
  intro Hin. apply where_from_In in Hin. destruct Hin as [j [E _]]. lia.
Qed.

Lemma nonzero_from_In (m : matrix) (r : nat) (p : nat * nat) :
  In p (nonzero_from r m) <->
  exists j row x, fst p = (r + j)%nat /\ nth_error m j = Some row /\
                  nth_error row (snd p) = Some x /\ nonzero x = true.
Proof.
  revert r. induction m as [|row rows IH]; intro r; simpl.
  - split; [tauto|]. intros [j [row [x [_ [Hj _]]]]]. destruct j; discriminate.
  - rewrite in_app_iff, in_map_iff, IH. split.
    + intros [[c [<- Hc]]|[j [row' [x [E [Hj [Hx Hnz]]]]]]].
      * apply np_where_In in Hc. rewrite nth_error_map in Hc.
        destruct (nth_error row c) as [x|] eqn:Ex; [|discriminate].
        injection Hc as Hc. exists 0%nat, row, x. simpl.
        repeat split; trivial; lia.
      * exists (S j), row', x. simpl. repeat split; trivial; lia.
    + intros [[|j] [row' [x [E [Hj [Hx Hnz]]]]]]; simpl in Hj.
      * injection Hj as <-. left. exists (snd p). split.
        -- destruct p as [pr pc]. simpl in *. f_equal. lia.
        -- apply np_where_In. rewrite nth_error_map, Hx. simpl. now f_equal.
      * right. exists j, row', x. repeat split; trivial; lia.
Qed.

Lemma nonzero_from_NoDup (m : matrix) (r : nat) : NoDup (nonzero_from r m).
Proof.
  revert r. induction m as [|row rows IH]; intro r; simpl; [constructor|].
  apply NoDup_app.
  - generalize (where_from_NoDup (map nonzero row) 0).
    unfold np_where. generalize (where_from 0 (map nonzero row)).
    intros l Hl. induction Hl as [|c l Hc Hl IHl]; simpl; constructor.
    + rewrite in_map_iff. intros [c' [E Hc']]. injection E as <-. tauto.
    + exact IHl.
  - apply IH.
  - intros p Hp Hq. apply in_map_iff in Hp. destruct Hp as [c [<- _]].
    apply nonzero_from_In in Hq. destruct Hq as [j [_ [_ [E _]]]].
    simpl in E. lia.
Qed.

(** The positions [np.nonzero] returns are exactly those of the non-zero
    entries, each once. *)
Lemma np_nonzero_spec (m : matrix) :
  NoDup (np_nonzero m) /\
  forall p, In p (np_nonzero m) <->
            exists x, entry m p = Some x /\ nonzero x = true.
Proof.
  split; [apply nonzero_from_NoDup|]. intro p. unfold np_nonzero, entry.
  rewrite nonzero_from_In. split.
  - intros [j [row [x [E [Hj [Hx Hnz]]]]]]. simpl in E. rewrite E, Hj.
    now exists x.
  - intros [x [Hx Hnz]].
    destruct (nth_error m (fst p)) as [row|] eqn:Er; [|discriminate].
    exists (fst p), row, x. now repeat split.
Qed.

Lemma nonzero_weights_Forall2 (m : matrix) :
  Forall2 (fun p x => entry m p = Some x /\ nonzero x = true)
    (np_nonzero m) (nonzero_weights m).
Proof.
  unfold nonzero_weights.
  assert (Hv : forall p, In p (np_nonzero m) ->
                         exists x, entry m p = Some x /\ nonzero x = true)
    by (intro p; apply np_nonzero_spec).
  revert Hv. generalize (np_nonzero m). intros ps Hv.
  induction ps as [|p ps IH]; simpl; [constructor|].
  destruct (Hv p (or_introl eq_refl)) as [x [Ex Hx]]. rewrite Ex. simpl.
  constructor; [now split|]. apply IH. intros q Hq. apply Hv. now right.
Qed.

Lemma Forall2_nth {A B : Type} (R : A -> B -> Prop) (l1 : list A)
  (l2 : list B) (d1 : A) (d2 : B) :
  Forall2 R l1 l2 ->
  forall i, (i < List.length l1)%nat -> R (nth i l1 d1) (nth i l2 d2).
Proof.
  induction 1 as [|x y l1 l2 Hxy _ IH]; intros i Hi; simpl in *; [lia|].
  destruct i; [exact Hxy|]. apply IH. lia.
Qed.

Lemma map_nth_seq {A : Type} (l : list A) (d : A) :
  map (fun i => nth i l d) (seq 0 (List.length l)) = l.
Proof.
  apply nth_ext with (d := d) (d' := d).
  - now rewrite length_map, length_seq.
  - intros i Hi. rewrite length_map, length_seq in Hi.
    rewrite (nth_indep _ d (nth 0 l d)) by (now rewrite length_map, length_seq).
    rewrite (map_nth (fun i => nth i l d)), seq_nth by exact Hi.
    reflexivity.
Qed.

Lemma entry_to_nS (loaded : matrix) (p : nat * nat) :
  entry (to_nS loaded) p = option_map (fun x => x * 1e9) (entry loaded p).
Proof.
  unfold entry, to_nS. rewrite nth_error_map.
  destruct (nth_error loaded (fst p)) as [row|]; simpl; [|reflexivity].
  apply nth_error_map.
Qed.

Lemma nonzero_to_nS (y : Q) : nonzero (y * 1e9) = nonzero y.
Proof.
  unfold nonzero. f_equal.
  destruct (Qeq_bool y 0) eqn:E.
  - apply Qeq_bool_iff. apply Qeq_bool_iff in E. rewrite E. reflexivity.
  - destruct (Qeq_bool (y * 1e9) 0) eqn:E'; [|reflexivity].
    apply Qeq_bool_iff in E'. apply Qeq_bool_neq in E.
    apply Qmult_integral in E'. destruct E' as [E'|E']; [contradiction|].
    discriminate E'.
Qed.

Section Sampling.
Context `{Interpreter}.

(** Without replacement: on a population of [N > 0] positions and a size
    between 0 and [N], the choice returns the first [size] entries of a
    permutation of [0 .. N-1]. *)
Lemma choice_positions_spec (N : nat) (size : Z) (g : world) :
  (0 < N)%nat -> (0 <= size <= Z.of_nat N)%Z ->
  exists perm g',
    choice_positions N size g = Ok (firstn (Z.to_nat size) perm, g') /\
    Permutation perm (seq 0 N).
Proof.
  intros HN [H0 Hle]. unfold choice_positions.
  destruct (Z.ltb_spec size 0); [lia|].
  destruct (Nat.eqb_spec N 0); [lia|].
  destruct (Z.ltb_spec (Z.of_nat N) size); [lia|].
  pose proof (np_permutation_perm N (np_random g)) as Hperm.
  destruct (np_permutation N (np_random g)) as [perm s].
  eexists perm, _. split; [reflexivity|exact Hperm].
Qed.
(** C4: for a sample size between 0 and the number of non-zero weights, the
    weights are read at pairwise distinct positions of the weight matrix,
    the start of a rearrangement of all positions of its non-zero entries;
    each weight is the non-zero entry loaded at its position, in nS. *)
Theorem sample_weights_spec (loaded : matrix) (n : Z) (g : world) :
  (0 < List.length (nonzero_weights (to_nS loaded)))%nat ->
  (0 <= n <= Z.of_nat (List.length (nonzero_weights (to_nS loaded))))%Z ->
  exists weights g' positions others,
    sample_weights (to_nS loaded) n g = Ok (weights, g') /\
    List.length weights = Z.to_nat n /\
    NoDup positions /\
    Permutation (positions ++ others) (np_nonzero (to_nS loaded)) /\
    Forall2 (fun p x => exists y, entry loaded p = Some y /\
                                  nonzero y = true /\ x = y * 1e9)
      positions weights.
Proof.
  intros Hpop Hn. set (wmx := to_nS loaded) in *.
  pose proof (nonzero_weights_Forall2 wmx) as HF.
  pose proof (Forall2_length HF) as Hlen.
  destruct (choice_positions_spec (List.length (nonzero_weights wmx)) n
              (np_random_seed 12345 g) Hpop Hn) as [perm [g' [Ech Hperm]]].
  set (at_ := fun i : nat => nth i (np_nonzero wmx) (0%nat, 0%nat)).
  exists (map (fun i => nth i (nonzero_weights wmx) 0)
            (firstn (Z.to_nat n) perm)), g',
         (map at_ (firstn (Z.to_nat n) perm)),
         (map at_ (skipn (Z.to_nat n) perm)).
  assert (Hall : Permutation
                   (map at_ (firstn (Z.to_nat n) perm)
                    ++ map at_ (skipn (Z.to_nat n) perm)) (np_nonzero wmx)).
  { rewrite <- map_app, firstn_skipn.
    rewrite <- (map_nth_seq (np_nonzero wmx) (0%nat, 0%nat)) at 1.
    rewrite Hlen. apply Permutation_map. exact Hperm. }
  split; [|split; [|split; [|split]]].
  - unfold sample_weights, np_random_choice. fold wmx. rewrite Ech.
    reflexivity.
  - rewrite length_map, length_firstn.
    rewrite (Permutation_length Hperm), length_seq. lia.
  - apply NoDup_app_remove_r with (l' := map at_ (skipn (Z.to_nat n) perm)).
    apply Permutation_NoDup with (l := np_nonzero wmx).
    + apply Permutation_sym. exact Hall.
    + apply np_nonzero_spec.
  - exact Hall.
  - assert (Hin : forall i, In i (firstn (Z.to_nat n) perm) ->
                            (i < List.length (np_nonzero wmx))%nat).
    { intros i Hi. rewrite Hlen.
      assert (Hi' : In i perm).
      { rewrite <- (firstn_skipn (Z.to_nat n) perm). apply in_or_app.
        now left. }
      apply (Permutation_in _ Hperm) in Hi'. apply in_seq in Hi'. lia. }
    revert Hin. generalize (firstn (Z.to_nat n) perm). intros idx Hin.
    induction idx as [|i idx IH]; simpl; constructor.
    + destruct (Forall2_nth _ _ _ (0%nat, 0%nat) 0 HF i
                  (Hin i (or_introl eq_refl))) as [Ex Hnz].
      fold (at_ i) in Ex. unfold wmx in Ex, Hnz. rewrite entry_to_nS in Ex.
      destruct (entry loaded (at_ i)) as [y|] eqn:Ey; [|discriminate].
      simpl in Ex. injection Ex as Ex. exists y. rewrite <- Ex in Hnz.
      rewrite nonzero_to_nS in Hnz. unfold wmx. now repeat split.
    + apply IH. intros j Hj. apply Hin. now right.
Qed.
End Sampling.

Lemma rotation_perm (n : nat) (s : Z) : Permutation (rotation n s) (seq 0 n).
Proof.
  unfold rotation.
  rewrite <- (firstn_skipn (Z.to_nat (s mod Z.of_nat n)) (seq 0 n)) at 3.
  apply Permutation_app_comm.
Qed.

#[export] Instance counting_interpreter : Interpreter := {|
  np_state := Z;
  py_state := Z;
  np_seed := fun s => s;
  py_seed := fun s => s;
  np_permutation := fun n s => (rotation n s, (s + 1)%Z);
  np_permutation_perm := rotation_perm;
  np_exp := series_exp;
  np_log := series_log
|}.

#[export] Instance forward_euler : Brian2 := {|
  state_update := fun t c g => (euler_cell t c, g)
|}.

(** A state of the two counting generators. *)
Definition some_world : @world counting_interpreter :=
  @Build_world counting_interpreter 7%Z 7%Z.

(** A loaded 3 x 3 matrix with four non-zero weights (in siemens). *)
Definition small_wmx : matrix :=
  [ [0; 1.5e-9; 0]; [2e-9; 0; 0.5e-9]; [0; 0; 3e-9] ].

Lemma sample_weights_example :
  exists weights g' positions others,
    sample_weights (to_nS small_wmx) 2 some_world
    = Ok (weights, g') /\
    List.length weights = Z.to_nat 2 /\
    NoDup positions /\
    Permutation (positions ++ others) (np_nonzero (to_nS small_wmx)) /\
    Forall2 (fun p x => exists y, entry small_wmx p = Some y /\
                                  nonzero y = true /\ x = y * 1e9)
      positions weights.
Proof.
  apply (sample_weights_spec small_wmx 2 some_world).
  - vm_compute. lia.
  - vm_compute. split; discriminate.
Defined.

(** With the generator seeded by 12345 the rotation starts at position 1 of
    the four non-zero weights 1.5, 2, 0.5, 3. *)
Example sample_weights_runs :
  sample_weights (to_nS small_wmx) 2 some_world
  = Ok ([2e-9 * 1e9; 0.5e-9 * 1e9],
        @Build_world counting_interpreter 12346%Z 7%Z).
Proof. reflexivity. Qed.

(** ** The clock and the monitor *)

Lemma timesteps_StateM_dt : timesteps StateM_dt = 1%nat.
Proof. reflexivity. Qed.

Lemma timesteps_10ms : timesteps (10 * ms) = 100%nat.
Proof. reflexivity. Qed.

Lemma timesteps_390ms : timesteps (390 * ms) = 3900%nat.
Proof. reflexivity. Qed.

(** In milliseconds the clock reads a tenth of the step number. *)
Lemma clock_t_ms (k : nat) : clock_t k * 1000 == inject_Z (Z.of_nat k) / 10.
Proof.
  unfold clock_t, defaultclock_dt, ms. field.
Qed.

Lemma in_window_clock (k : nat) :
  in_window (clock_t k * 1000) = true <-> (2500 < k < 3500)%nat.
Proof.
  rewrite in_window_iff, !clock_t_ms.
  unfold Qlt, Qdiv, Qmult, Qinv, inject_Z. simpl. lia.
Qed.

Lemma map_seq_shifted {A : Type} (f g : nat -> A) (a b n : nat) :
  (forall j, f (b + j)%nat = g (a + j)%nat) ->
  map f (seq b n) = map g (seq a n).
Proof.
  intro Hfg. revert a b Hfg.
  induction n as [|n IH]; intros a b Hfg; [reflexivity|].
  simpl. f_equal.
  - specialize (Hfg 0%nat). now rewrite !Nat.add_0_r in Hfg.
  - apply IH. intro j. specialize (Hfg (S j)).
    now rewrite !Nat.add_succ_r in Hfg.
Qed.

Section Recording.
Context `{Brian2}.

Lemma step_monitor (weight : Q) (st : network * world) :
  timestep (fst (step weight st)) = S (timestep (fst st)) /\
  StateM_PC (fst (step weight st)) = StateM_PC (fst st) ++ [observe (fst st)].
Proof.
  destruct st as [net g]. unfold step.
  destruct (state_update (clock_t (timestep net)) (PC net) g) as [c1 g1].
  cbv zeta. rewrite timesteps_StateM_dt, Nat.mod_1_r. split; reflexivity.
Qed.

Lemma run_steps_monitor (weight : Q) (n : nat) (st : network * world) :
  timestep (fst (run_steps n weight st)) = (timestep (fst st) + n)%nat /\
  StateM_PC (fst (run_steps n weight st))
  = StateM_PC (fst st)
    ++ map (fun j => observe (fst (run_steps j weight st))) (seq 0 n).
Proof.
  revert st. induction n as [|n IH]; intro st.
  - simpl. rewrite app_nil_r. split; [lia|reflexivity].
  - destruct (IH (step weight st)) as [Ht Hm].
    destruct (step_monitor weight st) as [Ht1 Hm1].
    change (run_steps (S n) weight st) with (run_steps n weight (step weight st)).
    split; [lia|]. rewrite Hm, Hm1, <- app_assoc. f_equal.
    change (seq 0 (S n)) with (0%nat :: seq 1 n).
    rewrite <- seq_shift. simpl. rewrite map_map. reflexivity.
Qed.

(** The times a run adds to the monitor: one per step, read off the clock. *)
Lemma run_steps_times (weight : Q) (n : nat) (st : network * world) :
  map sample_t (StateM_PC (fst (run_steps n weight st)))
  = map sample_t (StateM_PC (fst st))
    ++ map clock_t (seq (timestep (fst st)) n).
Proof.
  destruct (run_steps_monitor weight n st) as [_ ->].
  rewrite map_app, map_map. f_equal.
  apply map_seq_shifted. intro j. simpl.
  destruct (run_steps_monitor weight j st) as [-> _]. reflexivity.
Qed.
(** Both generators are set before anything is simulated, whatever state
    the caller leaves them in. *)
Lemma reseeded (g1 g2 : world) :
  pyrandom_seed 12345 (np_random_seed 12345 g1)
  = pyrandom_seed 12345 (np_random_seed 12345 g2).
Proof. reflexivity. Qed.

Lemma recorded_reseeded (weight : Q) (i_hold : option Q) (g1 g2 : world) :
  recorded weight i_hold g1 = recorded weight i_hold g2.
Proof.
  unfold recorded. cbv zeta. rewrite (reseeded g1 g2). reflexivity.
Qed.

(** The monitor holds one row per step of the two runs: 100 + 3900. *)
Lemma recorded_times (weight : Q) (i_hold : option Q) (g : world) :
  map sample_t (StateM_PC (fst (recorded weight i_hold g)))
  = map clock_t (seq 0 sim_length).
Proof.
  unfold recorded, run. cbv zeta.
  rewrite timesteps_10ms, timesteps_390ms.
  remember (run_steps 100 weight
              (initial_network, pyrandom_seed 12345 (np_random_seed 12345 g)))
    as st1 eqn:E1.
  assert (H1 : timestep (fst st1) = 100%nat
               /\ map sample_t (StateM_PC (fst st1)) = map clock_t (seq 0 100)).
  { rewrite E1. split.
    - now destruct (run_steps_monitor weight 100
                      (initial_network,
                       pyrandom_seed 12345 (np_random_seed 12345 g)))
        as [-> _].
    - rewrite run_steps_times. reflexivity. }
  destruct H1 as [Ht Hm].
  change sim_length with (100 + 3900)%nat. rewrite seq_app, map_app.
  rewrite run_steps_times.
  destruct (truthy i_hold); [destruct i_hold as [i|]|].
  - cbn [fst snd with_PC timestep StateM_PC]. rewrite Hm, Ht. reflexivity.
  - rewrite Hm, Ht. reflexivity.
  - rewrite Hm, Ht. reflexivity.
Qed.

(** The rows of the first run are those of the monitor after 10 ms; the
    holding current is set only afterwards. *)
Lemma recorded_first_run (weight : Q) (i_hold : option Q) (g : world) :
  firstn (timesteps (10 * ms)) (StateM_PC (fst (recorded weight i_hold g)))
  = StateM_PC
      (fst (run (10 * ms) weight
              (initial_network,
               pyrandom_seed 12345 (np_random_seed 12345 g)))).
Proof.
  unfold recorded, run. cbv zeta.
  rewrite timesteps_10ms, timesteps_390ms.
  remember (run_steps 100 weight
              (initial_network, pyrandom_seed 12345 (np_random_seed 12345 g)))
    as st1 eqn:E1.
  assert (Hl : List.length (StateM_PC (fst st1)) = 100%nat).
  { rewrite E1.
    destruct (run_steps_monitor weight 100
                (initial_network,
                 pyrandom_seed 12345 (np_random_seed 12345 g))) as [_ ->].
    cbn [fst initial_network StateM_PC app].
    now rewrite length_map, length_seq. }
  assert (Hcut : forall rest : list sample,
             firstn 100 (StateM_PC (fst st1) ++ rest) = StateM_PC (fst st1)).
  { intro rest. rewrite firstn_app, Hl, Nat.sub_diag, firstn_O, app_nil_r.
    apply firstn_all2. lia. }
  destruct (truthy i_hold); [destruct i_hold as [i|]|].
  - destruct (run_steps_monitor weight 3900
                (with_PC (fst st1) (set_I (i * pA) (PC (fst st1))), snd st1))
      as [_ ->].
    cbn [fst with_PC StateM_PC]. apply Hcut.
  - destruct (run_steps_monitor weight 3900 st1) as [_ ->]. apply Hcut.
  - destruct (run_steps_monitor weight 3900 st1) as [_ ->]. apply Hcut.
Qed.

Lemma recorded_length (weight : Q) (i_hold : option Q) (g : world) :
  List.length (StateM_PC (fst (recorded weight i_hold g))) = sim_length.
Proof.
  rewrite <- (length_map sample_t), recorded_times.
  now rewrite length_map, length_seq.
Qed.
(** C5: two calls with the same weight and the same holding current return
    the same three arrays and leave the generators in the same state,
    whatever state they were in when the call began. *)
Theorem sym_paired_recording_deterministic (weight : Q) (i_hold : option Q)
  (g1 g2 : world) :
  sym_paired_recording weight i_hold g1 = sym_paired_recording weight i_hold g2.
Proof.
  unfold sym_paired_recording.
  rewrite (recorded_reseeded weight i_hold g1 g2). reflexivity.
Qed.

(** C7: the two runs make 100 + 3900 = 4000 steps of 0.1 ms, and the three
    arrays have that length, the width of the rows allocated by the script;
    the time axis runs in steps of 0.1 from 0 to 399.9.  The rows of the
    first 10 ms are recorded before the holding current is set: they are the
    same for every holding current. *)
Theorem sym_paired_recording_length (weight : Q) (i_hold : option Q)
  (g : world) :
  let '(t_, EPSP, EPSC, _) := sym_paired_recording weight i_hold g in
  (timesteps (10 * ms) + timesteps (390 * ms))%nat = sim_length /\
  timesteps (400 * ms) = sim_length /\
  List.length t_ = sim_length /\
  List.length EPSP = sim_length /\
  List.length EPSC = sim_length /\
  (forall k, (k < sim_length)%nat ->
     nth k t_ 0 == inject_Z (Z.of_nat k) * 0.1) /\
  forall i_hold',
    let '(_, EPSP', EPSC', _) := sym_paired_recording weight i_hold' g in
    firstn (timesteps (10 * ms)) EPSP = firstn (timesteps (10 * ms)) EPSP' /\
    firstn (timesteps (10 * ms)) EPSC = firstn (timesteps (10 * ms)) EPSC'.
Proof.
  unfold sym_paired_recording.
  pose proof (recorded_times weight i_hold g) as Ht.
  pose proof (recorded_length weight i_hold g) as Hl.
  pose proof (recorded_first_run weight i_hold g) as Hf.
  destruct (recorded weight i_hold g) as [net g'].
  change (fst (net, g')) with net in Ht, Hl, Hf.
  rewrite !length_map.
  split; [reflexivity|]. split; [reflexivity|].
  split; [exact Hl|]. split; [exact Hl|]. split; [exact Hl|].
  split.
  2:{ intro i_hold'.
      pose proof (recorded_first_run weight i_hold' g) as Hf'.
      destruct (recorded weight i_hold' g) as [net' g''].
      change (fst (net', g'')) with net' in Hf'.
      rewrite !firstn_map, Hf, Hf'. split; reflexivity. }
  intros k Hk.
  rewrite <- (map_map sample_t (fun t => t * 1000)), Ht, map_map.
  rewrite (nth_indep _ 0 (clock_t 0 * 1000))
    by (now rewrite length_map, length_seq).
  rewrite (map_nth (fun j => clock_t j * 1000)), seq_nth by exact Hk.
  rewrite clock_t_ms. simpl. field.
Qed.

(** C9: a holding current of zero is falsy.  The recording is the one made
    without holding current, and the peak extraction fails its assertion
    whether or not a holding voltage is given. *)
Theorem zero_holding_current (weight : Q) (g : world) (t_ EPSP : list Q)
  (v : option Q) :
  sym_paired_recording weight (Some 0) g = sym_paired_recording weight None g
  /\ get_peak_EPSP t_ EPSP (Some 0) v = Raise AssertionError.
Proof.
  split; reflexivity.
Qed.

(** C10: the time axis is the monitor's time in seconds times 1000, the EPSP
    trace its voltage over mV and the EPSC trace its current over pA.  Row
    [k] is taken at [k] clock steps, which reads [k/10] on the time axis; a
    recorded [x * mV] is returned as [x] and a recorded [y * pA] as [y]; the
    window test holds at the rows 2501 to 3499. *)
Theorem sym_paired_recording_units (weight : Q) (i_hold : option Q)
  (g : world) :
  let rows := StateM_PC (fst (recorded weight i_hold g)) in
  let '(t_, EPSP, EPSC, _) := sym_paired_recording weight i_hold g in
  t_ = map (fun s => sample_t s * 1000) rows /\
  EPSP = map (fun s => sample_vm s / mV) rows /\
  EPSC = map (fun s => sample_EPSC s / pA) rows /\
  map sample_t rows = map clock_t (seq 0 sim_length) /\
  (forall k, (k < sim_length)%nat ->
     nth k t_ 0 == inject_Z (Z.of_nat k) / 10 /\
     (in_window (nth k t_ 0) = true <-> (2500 < k < 3500)%nat)) /\
  (forall k s x, nth_error rows k = Some s -> sample_vm s == x * mV ->
     exists e, nth_error EPSP k = Some e /\ e == x) /\
  (forall k s y, nth_error rows k = Some s -> sample_EPSC s == y * pA ->
     exists c, nth_error EPSC k = Some c /\ c == y).
Proof.
  unfold sym_paired_recording.
  pose proof (recorded_times weight i_hold g) as Ht.
  destruct (recorded weight i_hold g) as [net g']. simpl fst in *.
  cbv zeta.
  split; [reflexivity|]. split; [reflexivity|]. split; [reflexivity|].
  split; [exact Ht|]. split; [|split].
  - intros k Hk.
    assert (E : nth k (map (fun s => sample_t s * 1000) (StateM_PC net)) 0
                = clock_t k * 1000).
    { rewrite <- (map_map sample_t (fun t => t * 1000)), Ht, map_map.
      rewrite (nth_indep _ 0 (clock_t 0 * 1000))
        by (now rewrite length_map, length_seq).
      rewrite (map_nth (fun j => clock_t j * 1000)), seq_nth by exact Hk.
      reflexivity. }
    rewrite E. split; [apply clock_t_ms|apply in_window_clock].
  - intros k s x Hs Hx. exists (sample_vm s / mV). split.
    + rewrite nth_error_map, Hs. reflexivity.
    + rewrite Hx. unfold mV. field.
  - intros k s y Hs Hy. exists (sample_EPSC s / pA). split.
    + rewrite nth_error_map, Hs. reflexivity.
    + rewrite Hy. unfold pA. field.
Qed.
End Recording.

(** ** Writing into the result arrays *)

Lemma set_item_spec {A : Type} (a : list A) (i : nat) (x : A) :
  (i < List.length a)%nat ->
  exists a', set_item a i x = Ok a' /\
    List.length a' = List.length a /\
    nth_error a' i = Some x /\
    forall j, j <> i -> nth_error a' j = nth_error a j.
Proof.
  intro Hi. unfold set_item.
  destruct (Nat.ltb_spec i (List.length a)) as [_|]; [|lia].
  eexists. split; [reflexivity|].
  assert (Hf : List.length (firstn i a) = i)
    by (rewrite length_firstn; lia).
  split; [|split].
  - rewrite length_app, Hf. cbn [List.length]. rewrite length_skipn. lia.
  - rewrite nth_error_app2 by lia. rewrite Hf, Nat.sub_diag. reflexivity.
  - intros j Hj. destruct (Nat.lt_ge_cases j i) as [Hlt|Hge].
    + rewrite nth_error_app1 by lia. rewrite nth_error_firstn.
      destruct (Nat.ltb_spec j i); [reflexivity|lia].
    + rewrite nth_error_app2 by lia. rewrite Hf.
      destruct (j - i)%nat as [|d] eqn:Ed; [lia|]. cbn [nth_error].
      rewrite nth_error_skipn. f_equal. lia.
Qed.

Lemma set_row_spec (m : matrix) (i : nat) (old row : list Q) :
  nth_error m i = Some old -> List.length row = List.length old ->
  exists m', set_row m i row = Ok m' /\
    List.length m' = List.length m /\
    nth_error m' i = Some row /\
    forall j, j <> i -> nth_error m' j = nth_error m j.
Proof.
  intros Hold Hlen. unfold set_row. rewrite Hold, Hlen, Nat.eqb_refl.
  apply set_item_spec. apply nth_error_Some. congruence.
Qed.

Lemma in_range {A : Type} (l : list A) (i : nat) :
  (i < List.length l)%nat -> exists x, nth_error l i = Some x.
Proof.
  intro Hi. destruct (nth_error l i) as [x|] eqn:E; [now exists x|].
  apply nth_error_None in E. lia.
Qed.

(** ** The trials *)

Section Trials.
Context `{Brian2}.

Lemma recording_shape (weight : Q) (i : option Q) (g : world) :
  let '(t_, EPSP, EPSC, _) := sym_paired_recording weight i g in
  List.length t_ = sim_length /\ List.length EPSP = sim_length /\
  List.length EPSC = sim_length /\
  forall k, (k < sim_length)%nat -> nth_error t_ k = Some (clock_t k * 1000).
Proof.
  unfold sym_paired_recording.
  pose proof (recorded_times weight i g) as Ht.
  pose proof (recorded_length weight i g) as Hl.
  destruct (recorded weight i g) as [net g']. simpl fst in *.
  rewrite !length_map. repeat split; trivial.
  intros k Hk.
  rewrite <- (map_map sample_t (fun t => t * 1000)), Ht, map_map.
  rewrite (nth_error_nth' _ (clock_t 0 * 1000))
    by (now rewrite length_map, length_seq).
  rewrite (map_nth (fun j => clock_t j * 1000)), seq_nth by exact Hk.
  reflexivity.
Qed.

Lemma trial_spec (n i : nat) (weight : Q) (out : results) (g : world) :
  shaped n out -> (i < n)%nat ->
  exists out' m,
    trial i weight out g
    = Ok (out', snd (sym_paired_recording weight (Some i_hold) g)) /\
    shaped n out' /\
    nth_error (EPSCs out') i = Some (trial_EPSC weight g) /\
    nth_error (peak_EPSCs out') i = Some m /\
    np_max (trial_EPSC weight g) = Ok m /\
    forall j, j <> i ->
      nth_error (EPSCs out') j = nth_error (EPSCs out) j /\
      nth_error (peak_EPSCs out') j = nth_error (peak_EPSCs out) j.
Proof.
  intros [HP [HC [Hp [Hc [HwP HwC]]]]] Hi.
  unfold trial, trial_EPSC.
  pose proof (recording_shape weight (Some i_hold) g) as Hshape.
  destruct (sym_paired_recording weight (Some i_hold) g)
    as [[[t_ EPSP] EPSC] g'].
  destruct Hshape as [Hlt [HlP [HlC Htime]]]. cbn [fst snd].
  destruct (in_range (EPSPs out) i) as [oldP HoldP]; [lia|].
  destruct (in_range (EPSCs out) i) as [oldC HoldC]; [lia|].
  destruct (set_row_spec (EPSPs out) i oldP EPSP HoldP)
    as [rows_P [-> [HP1 [HP2 HP3]]]];
    [rewrite (HwP i oldP HoldP); exact HlP|].
  destruct (set_row_spec (EPSCs out) i oldC EPSC HoldC)
    as [rows_C [-> [HC1 [HC2 HC3]]]];
    [rewrite (HwC i oldC HoldC); exact HlC|].
  destruct (clamped_peak t_ EPSP i_hold v_hold eq_refl eq_refl)
    as [mP [-> _]]; [congruence| |].
  { exists 3000%nat, (clock_t 3000 * 1000).
    split; [apply Htime; unfold sim_length; lia|].
    apply in_window_iff, in_window_clock. lia. }
  cbn [bind].
  destruct (set_item_spec (peak_EPSPs out) i (mP - v_hold))
    as [peaks_P [-> [Hp1 _]]]; [lia|].
  destruct (np_max_spec EPSC) as [m [Em _]].
  { intro E. rewrite E in HlC. discriminate HlC. }
  cbn [bind]. rewrite Em. cbn [bind].
  destruct (set_item_spec (peak_EPSCs out) i m)
    as [peaks_C [-> [Hc1 [Hc2 Hc3]]]]; [lia|].
  cbn [bind]. eexists. exists m. split; [reflexivity|].
  cbn [EPSCs peak_EPSCs].
  split; [|split; [exact HC2|split; [exact Hc2|split; [reflexivity|]]]].
  - unfold shaped. cbn [EPSPs EPSCs peak_EPSPs peak_EPSCs].
    repeat split; try congruence.
    + intros j row Hj. destruct (Nat.eq_dec j i) as [->|Hne].
      * rewrite HP2 in Hj. congruence.
      * rewrite (HP3 j Hne) in Hj. exact (HwP j row Hj).
    + intros j row Hj. destruct (Nat.eq_dec j i) as [->|Hne].
      * rewrite HC2 in Hj. congruence.
      * rewrite (HC3 j Hne) in Hj. exact (HwC j row Hj).
  - intros j Hj. split; [exact (HC3 j Hj)|exact (Hc3 j Hj)].
Qed.
Lemma trial_EPSC_any (weight : Q) (g1 g2 : world) :
  trial_EPSC weight g1 = trial_EPSC weight g2.
Proof.
  unfold trial_EPSC, sym_paired_recording.
  rewrite (recorded_reseeded weight (Some i_hold) g1 g2). reflexivity.
Qed.

Lemma trials_spec (n : nat) (weights : list Q) :
  forall (i : nat) (out : results) (g : world),
  shaped n out -> (i + List.length weights <= n)%nat ->
  exists out' g',
    trials i weights out g = Ok (out', g') /\
    shaped n out' /\
    (forall j, (j < i)%nat ->
       nth_error (EPSCs out') j = nth_error (EPSCs out) j /\
       nth_error (peak_EPSCs out') j = nth_error (peak_EPSCs out) j) /\
    forall j weight, nth_error weights j = Some weight ->
      exists m,
        nth_error (EPSCs out') (i + j) = Some (trial_EPSC weight g) /\
        nth_error (peak_EPSCs out') (i + j) = Some m /\
        np_max (trial_EPSC weight g) = Ok m.
Proof.
  induction weights as [|weight rest IH]; intros i out g Hsh Hlen.
  - exists out, g. split; [reflexivity|]. split; [exact Hsh|].
    split; [now split|]. intros [|j] weight Hj; discriminate Hj.
  - simpl in Hlen. cbn [trials].
    destruct (trial_spec n i weight out g Hsh) as
      [out1 [m [-> [Hsh1 [Hrow [Hpeak [Hmax Hother]]]]]]]; [lia|].
    cbn [bind fst snd].
    destruct (IH (S i) out1
                (snd (sym_paired_recording weight (Some i_hold) g)) Hsh1)
      as [out' [g' [-> [Hsh' [Hkeep Hnew]]]]]; [lia|].
    exists out', g'. split; [reflexivity|]. split; [exact Hsh'|]. split.
    + intros j Hj. destruct (Hkeep j) as [-> ->]; [lia|].
      apply Hother. lia.
    + intros [|j] w' Hj.
      * injection Hj as <-. rewrite Nat.add_0_r. exists m.
        destruct (Hkeep i) as [-> ->]; [lia|]. now repeat split.
      * destruct (Hnew j w' Hj) as [m' [E1 [E2 E3]]].
        rewrite Nat.add_succ_r. exists m'.
        rewrite (trial_EPSC_any w' g
                   (snd (sym_paired_recording weight (Some i_hold) g))).
        now repeat split.
Qed.

Lemma allocate_shaped (n : nat) :
  exists out0, allocate (Z.of_nat n) = Ok out0 /\ shaped n out0.
Proof.
  unfold allocate, np_zeros2, np_zeros.
  destruct (Z.ltb_spec (Z.of_nat n) 0) as [|_]; [lia|].
  rewrite Nat2Z.id. cbn [bind]. eexists. split; [reflexivity|].
  unfold shaped. cbn [EPSPs EPSCs peak_EPSPs peak_EPSCs].
  rewrite !repeat_length. repeat split; trivial.
  - intros j row Hj. apply nth_error_In, repeat_spec in Hj. subst row.
    apply repeat_length.
  - intros j row Hj. apply nth_error_In, repeat_spec in Hj. subst row.
    apply repeat_length.
Qed.

(** C6: the loop over the weights completes, and for every trial the peak
    EPSC stored for it is the largest sample of the whole EPSC trace of that
    trial, the row stored for it, with nothing subtracted. *)
Theorem peak_EPSC_is_trial_maximum (weights : list Q) (g : world) :
  exists out g',
    (out0 <- allocate (Z.of_nat (List.length weights)) ;;
     trials 0 weights out0 g) = Ok (out, g') /\
    forall i weight, nth_error weights i = Some weight ->
      exists m,
        nth_error (peak_EPSCs out) i = Some m /\
        nth_error (EPSCs out) i = Some (trial_EPSC weight g) /\
        np_max (trial_EPSC weight g) = Ok m /\
        maximum_of (trial_EPSC weight g) m.
Proof.
  destruct (allocate_shaped (List.length weights)) as [out0 [-> Hsh]].
  cbn [bind].
  destruct (trials_spec (List.length weights) weights 0 out0 g Hsh)
    as [out [g' [E [_ [_ Hnew]]]]]; [lia|].
  exists out, g'. split; [exact E|].
  intros i weight Hi. destruct (Hnew i weight Hi) as [m [E1 [E2 E3]]].
  change (0 + i)%nat with i in E1, E2. exists m.
  split; [exact E2|]. split; [exact E1|]. split; [exact E3|].
  unfold maximum_of.
  destruct (trial_EPSC weight g) as [|x xs]; [discriminate E3|].
  injection E3 as <-. apply fold_max_spec.
Qed.
End Trials.

(** ** The whole script *)

Section Main.
Context `{Brian2}.

(** When the matrix has a non-zero weight and the number of weights asked
    for does not exceed their number, the script runs to its plots, with one
    peak per sampled weight. *)
Lemma main_completes (int : string -> result Z) (argv : list string)
  (loaded : matrix) (g : world) :
  (0 < List.length (nonzero_weights (to_nS loaded)))%nat ->
  (0 <= number_of_weights int argv
   <= Z.of_nat (List.length (nonzero_weights (to_nS loaded))))%Z ->
  exists out avg g',
    main int argv loaded g = Ok (out, avg, g') /\
    shaped (Z.to_nat (number_of_weights int argv)) out.
Proof.
  intros Hpop Hn. unfold main. cbv zeta.
  set (n := number_of_weights int argv) in *.
  unfold sample_weights, np_random_choice.
  destruct (choice_positions_spec (List.length (nonzero_weights (to_nS loaded)))
              n (np_random_seed 12345 g) Hpop Hn) as [perm [g1 [-> Hperm]]].
  cbn [bind fst snd].
  destruct (allocate_shaped (Z.to_nat n)) as [out0 [Ea Hsh]].
  rewrite Z2Nat.id in Ea by lia. rewrite Ea. cbn [bind].
  destruct (trials_spec (Z.to_nat n)
              (map (fun i => nth i (nonzero_weights (to_nS loaded)) 0)
                 (firstn (Z.to_nat n) perm)) 0 out0 g1 Hsh)
    as [out [g2 [-> [Hsh' _]]]].
  { rewrite length_map, length_firstn. lia. }
  cbn [bind fst snd].
  destruct (sym_paired_recording (np_mean (nonzero_weights (to_nS loaded)))
              (Some i_hold) g2) as [avg g3].
  exists out, avg, g3. split; [reflexivity|exact Hsh'].
Qed.
End Main.

(** Three steps of the forward Euler instance: one monitor row per step,
    0.1 ms apart, the first at time 0 with the cell at rest. *)
Example monitor_runs :
  let net := fst (run_steps 3 1.2 (initial_network, some_world)) in
  map sample_t (StateM_PC net) = map clock_t [0; 1; 2]%nat /\
  timestep net = 3%nat /\
  option_map sample_vm (hd_error (StateM_PC net)) = Some Vrest_PC.
Proof. vm_compute. repeat split. Qed.

(** * Further properties *)

(** ** Outcomes of the peak extraction *)

Lemma take_at_Raise (a : list Q) (idx : list nat) (e : exn) :
  take_at a idx = Raise e -> e = IndexError.
Proof.
  induction idx as [|i rest IH]; simpl; [discriminate|].
  destruct (nth_error a i); [|congruence].
  destruct (take_at a rest); simpl; [discriminate|].
  intro E. apply IH. congruence.
Qed.

Lemma take_at_out_of_range (a : list Q) (idx : list nat) :
  (exists k, In k idx /\ (List.length a <= k)%nat) ->
  take_at a idx = Raise IndexError.
Proof.
  induction idx as [|i rest IH]; intros [k [Hk Hle]]; [destruct Hk|].
  simpl. destruct (nth_error a i) as [x|] eqn:Ei; [|reflexivity].
  destruct Hk as [->|Hk].
  - apply nth_error_None in Hle. congruence.
  - rewrite IH by (now exists k). reflexivity.
Qed.

Lemma take_at_in_range (a : list Q) (idx : list nat) (sel : list Q) :
  take_at a idx = Ok sel ->
  List.length sel = List.length idx /\
  forall k, In k idx -> (k < List.length a)%nat.
Proof.
  revert sel. induction idx as [|i rest IH]; intros sel; simpl.
  - intro E. injection E as <-. split; [reflexivity|]. intros k [].
  - destruct (nth_error a i) as [x|] eqn:Ei; [|discriminate].
    destruct (take_at a rest) as [xs|] eqn:Er; simpl; [|discriminate].
    intro E. injection E as <-. destruct (IH xs eq_refl) as [Hl Hr].
    split; [simpl; congruence|].
    intros k [<-|Hk]; [|now apply Hr].
    apply nth_error_Some. congruence.
Qed.

(** The positions the window mask selects. *)
Lemma window_positions (t_ : list Q) (k : nat) :
  In k (np_where (map in_window t_)) <->
  exists t, nth_error t_ k = Some t /\ 250 < t /\ t < 350.
Proof.
  rewrite np_where_In, nth_error_map. split.
  - destruct (nth_error t_ k) as [t|]; [|discriminate].
    simpl. intro E. injection E as E. exists t. split; [reflexivity|].
    now apply in_window_iff.
  - intros [t [-> Hw]]. simpl. f_equal. now apply in_window_iff.
Qed.

(** In clamped mode the call is the selection, the maximum and the
    subtraction, in this order. *)
Lemma clamped_unfold (t_ EPSP : list Q) (i v : option Q) :
  truthy i = true -> truthy v = true ->
  exists x, v = Some x /\
    get_peak_EPSP t_ EPSP i v
    = (sel <- take_at EPSP (np_where (map in_window t_)) ;;
       m <- np_max sel ;; Ok (m - x)).
Proof.
  intros Hi Hv. destruct v as [x|]; [|discriminate]. exists x.
  split; [reflexivity|]. unfold get_peak_EPSP. rewrite Hi, Hv. reflexivity.
Qed.

(** X1: the call returns a value exactly when the holding current and the
    holding voltage are both truthy, every time inside the window has its
    sample in [EPSP], and some time lies inside the window. *)
Theorem get_peak_EPSP_returns_iff (t_ EPSP : list Q) (i v : option Q) :
  (exists r, get_peak_EPSP t_ EPSP i v = Ok r) <->
  truthy i = true /\ truthy v = true /\
  (forall k t, nth_error t_ k = Some t -> 250 < t -> t < 350 ->
               (k < List.length EPSP)%nat) /\
  (exists k t, nth_error t_ k = Some t /\ 250 < t /\ t < 350).
Proof.
  split.
  - intros [r Hr]. destruct (truthy i) eqn:Hi.
    + destruct (truthy v) eqn:Hv.
      * destruct (clamped_unfold t_ EPSP i v Hi Hv) as [x [-> E]].
        rewrite E in Hr.
        destruct (take_at EPSP (np_where (map in_window t_))) as [sel|] eqn:Es;
          [|discriminate Hr].
        destruct (take_at_in_range _ _ _ Es) as [Hl Hrange].
        split; [reflexivity|]. split; [reflexivity|]. split.
        -- intros k t Ht H1 H2. apply Hrange, window_positions. now exists t.
        -- destruct (np_where (map in_window t_)) as [|k idx] eqn:Ew.
           ++ destruct sel; [discriminate Hr|discriminate Hl].
           ++ assert (Hk : In k (np_where (map in_window t_)))
                by (rewrite Ew; now left).
              apply window_positions in Hk. destruct Hk as [t Ht].
              now exists k, t.
      * unfold get_peak_EPSP in Hr. rewrite Hi, Hv in Hr. discriminate Hr.
    + unfold get_peak_EPSP in Hr. rewrite Hi in Hr.
      destruct (is_None i); [|discriminate Hr].
      destruct (np_max EPSP); discriminate Hr.
  - intros [Hi [Hv [Hrange [k [t [Ht Hw]]]]]].
    destruct (clamped_unfold t_ EPSP i v Hi Hv) as [x [-> ->]].
    destruct (take_at_spec EPSP (np_where (map in_window t_)))
      as [sel [-> Hsel]].
    { intros j Hj. apply window_positions in Hj.
      destruct Hj as [tj [Hj [H1 H2]]]. exact (Hrange j tj Hj H1 H2). }
    destruct (np_max_spec sel) as [m [Em _]].
    { destruct (in_range EPSP k (Hrange k t Ht (proj1 Hw) (proj2 Hw)))
        as [y Hy].
      assert (Hin : In y sel).
      { apply Hsel. exists k. split; [|exact Hy].
        apply window_positions. now exists t. }
      intro E. rewrite E in Hin. exact Hin. }
    cbn [bind]. rewrite Em. cbn [bind]. now eexists.
Qed.

Lemma take_at_Raise_position (a : list Q) (idx : list nat) (e : exn) :
  take_at a idx = Raise e ->
  exists k, In k idx /\ (List.length a <= k)%nat.
Proof.
  induction idx as [|i rest IH]; simpl; [discriminate|].
  destruct (nth_error a i) as [x|] eqn:Ei.
  - destruct (take_at a rest) as [xs|e'] eqn:Er; simpl; [discriminate|].
    intro E. destruct (IH E) as [k [Hk Hle]].
    exists k. split; [now right|exact Hle].
  - intros _. exists i. split; [now left|]. now apply nth_error_None.
Qed.

Lemma unclamped_unfold (t_ EPSP : list Q) (i v : option Q) :
  truthy i = false ->
  get_peak_EPSP t_ EPSP i v
  = (_ <- assert (is_None i) ;; m <- np_max EPSP ;; Raise NameError).
Proof.
  intro Hi. unfold get_peak_EPSP. rewrite Hi. reflexivity.
Qed.

(** X2: the call fails an assertion exactly when the holding current is
    truthy and the holding voltage is not (absent or zero), or when the
    holding current is given as zero. *)
Theorem get_peak_EPSP_AssertionError_iff (t_ EPSP : list Q)
  (i v : option Q) :
  get_peak_EPSP t_ EPSP i v = Raise AssertionError <->
  (truthy i = true /\ truthy v = false) \/
  (exists x, i = Some x /\ nonzero x = false).
Proof.
  split.
  - intro Hr. destruct (truthy i) eqn:Hi.
    + left. split; [reflexivity|]. destruct (truthy v) eqn:Hv; [|reflexivity].
      destruct (clamped_unfold t_ EPSP i v Hi Hv) as [x [_ E]].
      rewrite E in Hr.
      destruct (take_at EPSP (np_where (map in_window t_))) as [sel|e] eqn:Es.
      * cbn [bind] in Hr. destruct sel; discriminate Hr.
      * apply take_at_Raise in Es. subst e. discriminate Hr.
    + right. destruct i as [x|]; [now exists x|].
      rewrite (unclamped_unfold t_ EPSP None v Hi) in Hr.
      destruct EPSP; discriminate Hr.
  - intros [[Hi Hv]|[x [-> Hx]]].
    + unfold get_peak_EPSP. rewrite Hi, Hv. reflexivity.
    + unfold get_peak_EPSP. simpl. rewrite Hx. reflexivity.
Qed.

(** X3: the call raises ValueError exactly when the maximum is taken over
    nothing: in clamped mode, when no time lies inside the window; without
    holding current, when the trace is empty. *)
Theorem get_peak_EPSP_ValueError_iff (t_ EPSP : list Q) (i v : option Q) :
  get_peak_EPSP t_ EPSP i v = Raise ValueError <->
  (truthy i = true /\ truthy v = true /\
   forall k t, nth_error t_ k = Some t -> ~ (250 < t /\ t < 350)) \/
  (i = None /\ EPSP = []).
Proof.
  split.
  - intro Hr. destruct (truthy i) eqn:Hi.
    + left. split; [reflexivity|]. destruct (truthy v) eqn:Hv.
      * split; [reflexivity|].
        destruct (clamped_unfold t_ EPSP i v Hi Hv) as [x [_ E]].
        rewrite E in Hr.
        destruct (take_at EPSP (np_where (map in_window t_))) as [sel|e] eqn:Es.
        -- destruct (take_at_in_range _ _ _ Es) as [Hl _].
           cbn [bind] in Hr. destruct sel as [|y ys]; [|discriminate Hr].
           destruct (np_where (map in_window t_)) as [|k0 idx] eqn:Ew;
             [|discriminate Hl].
           intros k t Ht Hw.
           assert (Hk : In k (np_where (map in_window t_)))
             by (apply window_positions; now exists t).
           rewrite Ew in Hk. exact Hk.
        -- apply take_at_Raise in Es. subst e. discriminate Hr.
      * unfold get_peak_EPSP in Hr. rewrite Hi, Hv in Hr. discriminate Hr.
    + right. rewrite (unclamped_unfold t_ EPSP i v Hi) in Hr.
      destruct i as [x|]; [discriminate Hr|].
      destruct EPSP; [now split|discriminate Hr].
  - intros [[Hi [Hv Hout]]|[-> ->]]; [|reflexivity].
    destruct (clamped_unfold t_ EPSP i v Hi Hv) as [x [_ ->]].
    destruct (np_where (map in_window t_)) as [|k idx] eqn:Ew; [reflexivity|].
    assert (Hk : In k (np_where (map in_window t_))) by (rewrite Ew; now left).
    apply window_positions in Hk. destruct Hk as [t [Ht Hw]].
    destruct (Hout k t Ht Hw).
Qed.

(** X4: the call raises IndexError exactly in clamped mode with a time
    inside the window at a position where [EPSP] has no sample. *)
Theorem get_peak_EPSP_IndexError_iff (t_ EPSP : list Q) (i v : option Q) :
  get_peak_EPSP t_ EPSP i v = Raise IndexError <->
  truthy i = true /\ truthy v = true /\
  exists k t, nth_error t_ k = Some t /\ 250 < t /\ t < 350 /\
              (List.length EPSP <= k)%nat.
Proof.
  split.
  - intro Hr. destruct (truthy i) eqn:Hi.
    + split; [reflexivity|]. destruct (truthy v) eqn:Hv.
      * split; [reflexivity|].
        destruct (clamped_unfold t_ EPSP i v Hi Hv) as [x [_ E]].
        rewrite E in Hr.
        destruct (take_at EPSP (np_where (map in_window t_))) as [sel|e] eqn:Es.
        -- cbn [bind] in Hr. destruct sel; discriminate Hr.
        -- destruct (take_at_Raise_position _ _ _ Es) as [k [Hk Hle]].
           apply window_positions in Hk. destruct Hk as [t [Ht [H1 H2]]].
           now exists k, t.
      * unfold get_peak_EPSP in Hr. rewrite Hi, Hv in Hr. discriminate Hr.
    + rewrite (unclamped_unfold t_ EPSP i v Hi) in Hr.
      destruct i as [x|]; [discriminate Hr|].
      destruct EPSP; discriminate Hr.
  - intros [Hi [Hv [k [t [Ht [H1 [H2 Hle]]]]]]].
    destruct (clamped_unfold t_ EPSP i v Hi Hv) as [x [_ ->]].
    rewrite take_at_out_of_range; [reflexivity|].
    exists k. split; [|exact Hle]. apply window_positions. now exists t.
Qed.

Lemma take_at_ext (a a' : list Q) (idx : list nat) :
  (forall k, In k idx -> nth_error a k = nth_error a' k) ->
  take_at a idx = take_at a' idx.
Proof.
  induction idx as [|i rest IH]; intro Hagree; [reflexivity|].
  simpl. rewrite <- (Hagree i (or_introl eq_refl)).
  rewrite IH; [reflexivity|]. intros k Hk. apply Hagree. now right.
Qed.

(** X5: in clamped mode only the samples at times inside the window count:
    two traces that agree there give the same outcome. *)
Theorem get_peak_EPSP_window_only (t_ EPSP EPSP' : list Q) (i v : option Q) :
  truthy i = true ->
  (forall k t, nth_error t_ k = Some t -> 250 < t -> t < 350 ->
               nth_error EPSP k = nth_error EPSP' k) ->
  get_peak_EPSP t_ EPSP i v = get_peak_EPSP t_ EPSP' i v.
Proof.
  intros Hi Hagree. destruct (truthy v) eqn:Hv.
  - destruct (clamped_unfold t_ EPSP i v Hi Hv) as [x [Ex ->]].
    destruct (clamped_unfold t_ EPSP' i v Hi Hv) as [x' [Ex' ->]].
    assert (x' = x) by congruence. subst x'.
    rewrite (take_at_ext EPSP EPSP'); [reflexivity|].
    intros k Hk. apply window_positions in Hk.
    destruct Hk as [t [Ht [H1 H2]]]. exact (Hagree k t Ht H1 H2).
  - unfold get_peak_EPSP. rewrite Hi, Hv. reflexivity.
Qed.

Lemma get_peak_EPSP_window_only_example :
  get_peak_EPSP [249.9; 250; 300; 350] [9; 8; -65; 7]
    (Some i_hold) (Some v_hold)
  = get_peak_EPSP [249.9; 250; 300; 350] [-80; 0; -65]
      (Some i_hold) (Some v_hold).
Proof.
  apply (get_peak_EPSP_window_only [249.9; 250; 300; 350] [9; 8; -65; 7]
           [-80; 0; -65] (Some i_hold) (Some v_hold)).
  - reflexivity.
  - intros [|[|[|[|k]]]] t Ht H1 H2; simpl in Ht;
      try (injection Ht as <-); try discriminate Ht;
      try reflexivity; try (exfalso; revert H1; now vm_compute);
      try (exfalso; revert H2; now vm_compute).
    destruct k; discriminate Ht.
Defined.

(** ** The non-zero weights as a list *)

Lemma where_from_S (mask : list bool) (i : nat) :
  where_from (S i) mask = map S (where_from i mask).
Proof.
  revert i. induction mask as [|b bs IH]; intro i; [reflexivity|].
  simpl. rewrite IH. destruct b; reflexivity.
Qed.

Lemma row_nonzero (row : list Q) :
  flat_map (fun c => match nth_error row c with Some x => [x] | None => [] end)
    (np_where (map nonzero row))
  = filter nonzero row.
Proof.
  unfold np_where. induction row as [|x xs IH]; [reflexivity|].
  simpl. rewrite where_from_S.
  assert (E : flat_map
                (fun c => match nth_error (x :: xs) c with
                          | Some y => [y] | None => [] end)
                (map S (where_from 0 (map nonzero xs)))
              = filter nonzero xs).
  { rewrite <- IH. generalize (where_from 0 (map nonzero xs)).
    intro l. induction l as [|c l IHl]; [reflexivity|].
    simpl. now rewrite IHl. }
  destruct (nonzero x); simpl; rewrite E; reflexivity.
Qed.

Lemma nonzero_from_select (pre rows : matrix) :
  index_positions (pre ++ rows) (nonzero_from (List.length pre) rows)
  = filter nonzero (List.concat rows).
Proof.
  revert pre. induction rows as [|row rest IH]; intro pre; [reflexivity|].
  simpl. unfold index_positions in *. rewrite flat_map_app, filter_app.
  f_equal.
  - rewrite <- row_nonzero. rewrite flat_map_concat_map, map_map.
    rewrite <- flat_map_concat_map. apply flat_map_ext. intro c.
    unfold entry. cbn [fst snd].
    rewrite nth_error_app2 by lia. rewrite Nat.sub_diag. reflexivity.
  - specialize (IH (pre ++ [row])).
    rewrite <- app_assoc, length_app in IH. cbn [List.length app] in IH.
    rewrite Nat.add_1_r in IH. exact IH.
Qed.

Lemma nonzero_weights_filter (m : matrix) :
  nonzero_weights m = filter nonzero (List.concat m).
Proof.
  exact (nonzero_from_select [] m).
Qed.

(** X7: [wmx[np.nonzero(wmx)]] lists the entries of the matrix row after
    row, the zeros left out: nothing else is dropped, nothing is added or
    reordered. *)
Theorem nonzero_weights_row_major (m : matrix) :
  nonzero_weights m = filter nonzero (List.concat m).
Proof.
  apply nonzero_weights_filter.
Qed.

(** X8: converting the loaded matrix to nS and then selecting the non-zero
    weights gives the non-zero weights of the loaded matrix, each times
    1e9, in the same order. *)
Theorem nonzero_weights_to_nS (loaded : matrix) :
  nonzero_weights (to_nS loaded)
  = map (fun x => x * 1e9) (nonzero_weights loaded).
Proof.
  rewrite !nonzero_weights_filter. unfold to_nS.
  induction loaded as [|row rows IH]; [reflexivity|].
  simpl. rewrite !filter_app, map_app, IH. f_equal.
  induction row as [|x xs IHx]; [reflexivity|].
  simpl. rewrite nonzero_to_nS, IHx. destruct (nonzero x); reflexivity.
Qed.

(** ** More on the sampling *)

Section SamplingMore.
Context `{Interpreter}.

(** X9: for a sample size between 0 and the number of non-zero weights, the
    sampled weights together with some list of the remaining ones are a
    rearrangement of all non-zero weights: no weight is used more often
    than it occurs, and a sample of full size uses every one. *)
Theorem sample_weights_rearranges (wmx_PC_E : matrix) (n : Z) (g : world) :
  (0 < List.length (nonzero_weights wmx_PC_E))%nat ->
  (0 <= n <= Z.of_nat (List.length (nonzero_weights wmx_PC_E)))%Z ->
  exists weights others g',
    sample_weights wmx_PC_E n g = Ok (weights, g') /\
    Permutation (weights ++ others) (nonzero_weights wmx_PC_E) /\
    List.length others
    = (List.length (nonzero_weights wmx_PC_E) - Z.to_nat n)%nat.
Proof.
  intros Hpop Hn. set (nz := nonzero_weights wmx_PC_E) in *.
  destruct (choice_positions_spec (List.length nz) n
              (np_random_seed 12345 g) Hpop Hn) as [perm [g' [Ech Hperm]]].
  exists (map (fun i => nth i nz 0) (firstn (Z.to_nat n) perm)),
         (map (fun i => nth i nz 0) (skipn (Z.to_nat n) perm)), g'.
  split; [|split].
  - unfold sample_weights, np_random_choice. fold nz. rewrite Ech.
    reflexivity.
  - rewrite <- map_app, firstn_skipn.
    apply Permutation_trans
      with (map (fun i => nth i nz 0) (seq 0 (List.length nz))).
    + apply Permutation_map. exact Hperm.
    + rewrite map_nth_seq. apply Permutation_refl.
  - rewrite length_map, length_skipn.
    now rewrite (Permutation_length Hperm), length_seq.
Qed.
End SamplingMore.

Lemma sample_weights_rearranges_example :
  exists weights others g',
    sample_weights (to_nS small_wmx) 4 some_world = Ok (weights, g') /\
    Permutation (weights ++ others) (nonzero_weights (to_nS small_wmx)) /\
    List.length others
    = (List.length (nonzero_weights (to_nS small_wmx)) - Z.to_nat 4)%nat.
Proof.
  apply (sample_weights_rearranges (to_nS small_wmx) 4 some_world).
  - vm_compute. lia.
  - vm_compute. split; discriminate.
Defined.

Section TooLarge.
Context `{Brian2}.

(** X10: when more weights are asked for than the matrix has non-zero
    entries (as with the default 500 on a sparse matrix), the script stops
    with ValueError at the sampling, before any trial is simulated. *)
Theorem main_sample_too_large (int : string -> result Z)
  (argv : list string) (loaded : matrix) (g : world) :
  (Z.of_nat (List.length (nonzero_weights (to_nS loaded)))
   < number_of_weights int argv)%Z ->
  sample_weights (to_nS loaded) (number_of_weights int argv) g
  = Raise ValueError /\
  main int argv loaded g = Raise ValueError.
Proof.
  intro Hn.
  assert (E : sample_weights (to_nS loaded) (number_of_weights int argv) g
              = Raise ValueError).
  { unfold sample_weights, np_random_choice, choice_positions.
    destruct (Z.ltb_spec (number_of_weights int argv) 0); [reflexivity|].
    destruct (Nat.eqb_spec (List.length (nonzero_weights (to_nS loaded))) 0);
      [reflexivity|].
    destruct (Z.ltb_spec
                (Z.of_nat (List.length (nonzero_weights (to_nS loaded))))
                (number_of_weights int argv)); [reflexivity|lia]. }
  split; [exact E|]. unfold main. cbv zeta. rewrite E. reflexivity.
Qed.
End TooLarge.

Lemma main_sample_too_large_example :
  sample_weights (to_nS small_wmx)
    (number_of_weights py_int ["analyse_EPS.py"%string]) some_world
  = Raise ValueError /\
  main py_int ["analyse_EPS.py"%string] small_wmx some_world
  = Raise ValueError.
Proof.
  apply (main_sample_too_large py_int ["analyse_EPS.py"%string] small_wmx
           some_world).
  vm_compute. reflexivity.
Defined.

(** ** The recording before the presynaptic spike arrives *)

Lemma arrival_step_eq : arrival_step = 2522%nat.
Proof. reflexivity. Qed.

Section BeforeArrival.
Context `{Brian2}.

Lemma recorded_between_runs (weight : Q) (i_hold : option Q) (g : world) :
  recorded weight i_hold g
  = run_steps 3900 weight (between_runs weight i_hold g).
Proof.
  unfold recorded, between_runs, run. cbv zeta.
  rewrite timesteps_390ms. reflexivity.
Qed.

Lemma no_delivery (weight : Q) (k : nat) (q : list nat) (c : cell) :
  (forall due, In due q -> due <> k) ->
  fold_left (fun c due => if (due =? k)%nat then on_pre weight c else c) q c
  = c.
Proof.
  revert c. induction q as [|d q IH]; intros c Hq; [reflexivity|].
  simpl. destruct (Nat.eqb_spec d k) as [E|_].
  - destruct (Hq d (or_introl eq_refl) E).
  - apply IH. intros due Hdue. apply Hq. now right.
Qed.

Lemma step_before_arrival (w1 w2 : Q) (net : network) (g : world) :
  queue_pending net -> (timestep net < arrival_step)%nat ->
  step w1 (net, g) = step w2 (net, g) /\
  queue_pending (fst (step w1 (net, g))).
Proof.
  intros Hq Hk. unfold step.
  destruct (state_update (clock_t (timestep net)) (PC net) g) as [c1 g1].
  cbv zeta.
  set (q := if (timestep net =? pre_spike_step)%nat
            then queue net ++ [(timestep net + timesteps delay_PC_E)%nat]
            else queue net).
  assert (Hq' : forall due, In due q -> due = arrival_step).
  { intros due. unfold q. destruct (Nat.eqb_spec (timestep net) pre_spike_step)
      as [E|_]; [|apply Hq].
    rewrite in_app_iff. intros [Hd|[<-|[]]]; [now apply Hq|].
    unfold arrival_step. now rewrite E. }
  rewrite !no_delivery by (intros due Hd; apply Hq' in Hd; lia).
  split; [reflexivity|].
  intros due Hd. cbn [fst queue] in Hd. apply filter_In in Hd.
  apply Hq'. tauto.
Qed.

Lemma run_steps_before_arrival (w1 w2 : Q) (n : nat) :
  forall st : network * world,
  queue_pending (fst st) -> (timestep (fst st) + n <= arrival_step)%nat ->
  run_steps n w1 st = run_steps n w2 st /\
  queue_pending (fst (run_steps n w1 st)).
Proof.
  induction n as [|n IH]; intros [net g] Hq Hk; [now split|].
  cbn [fst] in *.
  destruct (step_before_arrival w1 w2 net g Hq) as [E Hq1]; [lia|].
  change (run_steps (S n) w1 (net, g))
    with (run_steps n w1 (step w1 (net, g))).
  change (run_steps (S n) w2 (net, g))
    with (run_steps n w2 (step w2 (net, g))).
  rewrite <- E. apply IH; [exact Hq1|].
  destruct (step_monitor w1 (net, g)) as [-> _]. cbn [fst]. lia.
Qed.

Lemma between_runs_spec (w1 w2 : Q) (i_hold : option Q) (g : world) :
  between_runs w1 i_hold g = between_runs w2 i_hold g /\
  queue_pending (fst (between_runs w1 i_hold g)) /\
  timestep (fst (between_runs w1 i_hold g)) = 100%nat /\
  StateM_PC (fst (between_runs w1 i_hold g))
  = map (fun j =>
           observe
             (fst (run_steps j w1
                     (initial_network,
                      pyrandom_seed 12345 (np_random_seed 12345 g)))))
      (seq 0 100).
Proof.
  unfold between_runs, run. cbv zeta. rewrite timesteps_10ms.
  set (st0 := (initial_network, pyrandom_seed 12345 (np_random_seed 12345 g))).
  destruct (run_steps_before_arrival w1 w2 100 st0) as [E Hq].
  { intros due []. }
  { rewrite arrival_step_eq. cbn [fst st0 initial_network timestep]. lia. }
  destruct (run_steps_monitor w1 100 st0) as [Ht Hm].
  rewrite <- E.
  destruct (truthy i_hold); [destruct i_hold as [i|]|];
    cbn [fst with_PC queue timestep StateM_PC];
    (split; [reflexivity|]); (split; [exact Hq|]);
    (split; [exact Ht|exact Hm]).
Qed.
End BeforeArrival.

Section RecordedRows.
Context `{Brian2}.

(** The rows of the monitor, read off the circuit step by step: 100 during
    the first run and 3900 during the second. *)
Lemma recorded_rows (weight : Q) (i_hold : option Q) (g : world) :
  StateM_PC (fst (recorded weight i_hold g))
  = map (fun j =>
           observe
             (fst (run_steps j weight
                     (initial_network,
                      pyrandom_seed 12345 (np_random_seed 12345 g)))))
      (seq 0 100)
    ++ map (fun j =>
              observe
                (fst (run_steps j weight (between_runs weight i_hold g))))
         (seq 0 3900).
Proof.
  rewrite recorded_between_runs.
  destruct (run_steps_monitor weight 3900 (between_runs weight i_hold g))
    as [_ ->].
  destruct (between_runs_spec weight weight i_hold g) as [_ [_ [_ ->]]].
  reflexivity.
Qed.

Lemma recorded_row_before_arrival (w1 w2 : Q) (i_hold : option Q)
  (g : world) (k : nat) :
  (k <= arrival_step)%nat ->
  nth_error (StateM_PC (fst (recorded w1 i_hold g))) k
  = nth_error (StateM_PC (fst (recorded w2 i_hold g))) k.
Proof.
  intro Hk. rewrite arrival_step_eq in Hk. rewrite !recorded_rows.
  set (st0 := (initial_network, pyrandom_seed 12345 (np_random_seed 12345 g))).
  destruct (between_runs_spec w1 w2 i_hold g) as [Eb [Hq [Ht _]]].
  rewrite <- Eb.
  destruct (Nat.lt_ge_cases k 100) as [Hlt|Hge].
  - rewrite !nth_error_app1 by (rewrite length_map, length_seq; exact Hlt).
    rewrite !nth_error_map, nth_error_seq.
    destruct (Nat.ltb_spec k 100) as [_|]; [|lia]. cbn [option_map].
    destruct (run_steps_before_arrival w1 w2 (0 + k) st0) as [-> _];
      [intros due []|rewrite arrival_step_eq; cbn [fst st0]; simpl; lia|].
    reflexivity.
  - rewrite !nth_error_app2 by (rewrite length_map, length_seq; exact Hge).
    rewrite !length_map, !length_seq, !nth_error_map, nth_error_seq.
    destruct (Nat.ltb_spec (k - 100) 3900) as [_|]; [|lia].
    cbn [option_map].
    destruct (run_steps_before_arrival w1 w2 (0 + (k - 100))
                (between_runs w1 i_hold g) Hq) as [-> _];
      [rewrite arrival_step_eq, Ht; lia|].
    reflexivity.
Qed.

(** X11: every recording starts with the cell at rest: the first row is
    taken at time 0, with the voltage at the resting potential
    -75.1884554193901 (mV) and no synaptic current, whatever the weight and
    the holding current. *)
Theorem recording_starts_at_rest (weight : Q) (i_hold : option Q)
  (g : world) :
  let '(t_, EPSP, EPSC, _) := sym_paired_recording weight i_hold g in
  exists t0 e0 c0,
    nth_error t_ 0 = Some t0 /\ t0 == 0 /\
    nth_error EPSP 0 = Some e0 /\ e0 == -75.1884554193901 /\
    nth_error EPSC 0 = Some c0 /\ c0 == 0.
Proof.
  unfold sym_paired_recording.
  pose proof (recorded_rows weight i_hold g) as Hrows.
  destruct (recorded weight i_hold g) as [net g'].
  change (fst (net, g')) with net in Hrows. rewrite Hrows.
  change (seq 0 100) with (0%nat :: seq 1 99).
  cbn [map app nth_error run_steps fst observe initial_network timestep PC
       sample_t sample_vm sample_EPSC].
  eexists _, _, _.
  split; [reflexivity|]. split; [reflexivity|].
  split; [reflexivity|]. split; [reflexivity|].
  split; [reflexivity|]. reflexivity.
Qed.

(** X12: the weight acts only once the presynaptic spike has arrived, at
    252.2 ms: two recordings that differ in the weight alone have the same
    time axis and the same rows 0 to 2522 of EPSP and EPSC. *)
Theorem recording_before_arrival (w1 w2 : Q) (i_hold : option Q)
  (g : world) :
  let '(t1, EPSP1, EPSC1, _) := sym_paired_recording w1 i_hold g in
  let '(t2, EPSP2, EPSC2, _) := sym_paired_recording w2 i_hold g in
  arrival_step = 2522%nat /\
  t1 = t2 /\
  forall k, (k <= arrival_step)%nat ->
    nth_error EPSP1 k = nth_error EPSP2 k /\
    nth_error EPSC1 k = nth_error EPSC2 k.
Proof.
  unfold sym_paired_recording.
  pose proof (recorded_times w1 i_hold g) as Ht1.
  pose proof (recorded_times w2 i_hold g) as Ht2.
  pose proof (recorded_row_before_arrival w1 w2 i_hold g) as Hrow.
  destruct (recorded w1 i_hold g) as [net1 g1].
  destruct (recorded w2 i_hold g) as [net2 g2].
  change (fst (net1, g1)) with net1 in *.
  change (fst (net2, g2)) with net2 in *.
  split; [reflexivity|]. split.
  - rewrite <- (map_map sample_t (fun t => t * 1000) (StateM_PC net1)).
    rewrite <- (map_map sample_t (fun t => t * 1000) (StateM_PC net2)).
    now rewrite Ht1, Ht2.
  - intros k Hk. rewrite !nth_error_map, (Hrow k Hk). now split.
Qed.
End RecordedRows.

(** ** The rows and peaks the script stores *)

Section Stored.
Context `{Brian2}.

Lemma recording_any (weight : Q) (i : option Q) (g1 g2 : world) :
  sym_paired_recording weight i g1 = sym_paired_recording weight i g2.
Proof.
  unfold sym_paired_recording.
  rewrite (recorded_reseeded weight i g1 g2). reflexivity.
Qed.

Lemma trial_full (n i : nat) (weight : Q) (out : results) (g : world) :
  shaped n out -> (i < n)%nat ->
  exists out' mP mC,
    trial i weight out g
    = Ok (out', snd (sym_paired_recording weight (Some i_hold) g)) /\
    shaped n out' /\
    nth_error (EPSPs out') i = Some (trial_EPSP weight g) /\
    nth_error (EPSCs out') i = Some (trial_EPSC weight g) /\
    nth_error (peak_EPSPs out') i = Some (mP - v_hold) /\
    nth_error (peak_EPSCs out') i = Some mC /\
    window_peak (trial_EPSP weight g) mP /\
    np_max (trial_EPSC weight g) = Ok mC /\
    forall j, j <> i ->
      nth_error (EPSPs out') j = nth_error (EPSPs out) j /\
      nth_error (EPSCs out') j = nth_error (EPSCs out) j /\
      nth_error (peak_EPSPs out') j = nth_error (peak_EPSPs out) j /\
      nth_error (peak_EPSCs out') j = nth_error (peak_EPSCs out) j.
Proof.
  intros [HP [HC [Hp [Hc [HwP HwC]]]]] Hi.
  unfold trial, trial_EPSP, trial_EPSC.
  pose proof (recording_shape weight (Some i_hold) g) as Hshape.
  destruct (sym_paired_recording weight (Some i_hold) g)
    as [[[t_ EPSP] EPSC] g'].
  destruct Hshape as [Hlt [HlP [HlC Htime]]]. cbn [fst snd].
  destruct (in_range (EPSPs out) i) as [oldP HoldP]; [lia|].
  destruct (in_range (EPSCs out) i) as [oldC HoldC]; [lia|].
  destruct (set_row_spec (EPSPs out) i oldP EPSP HoldP)
    as [rows_P [-> [HP1 [HP2 HP3]]]];
    [rewrite (HwP i oldP HoldP); exact HlP|].
  destruct (set_row_spec (EPSCs out) i oldC EPSC HoldC)
    as [rows_C [-> [HC1 [HC2 HC3]]]];
    [rewrite (HwC i oldC HoldC); exact HlC|].
  destruct (clamped_peak t_ EPSP i_hold v_hold eq_refl eq_refl)
    as [mP [-> [HmP HubP]]]; [congruence| |].
  { exists 3000%nat, (clock_t 3000 * 1000).
    split; [apply Htime; unfold sim_length; lia|].
    apply in_window_iff, in_window_clock. lia. }
  cbn [bind].
  destruct (set_item_spec (peak_EPSPs out) i (mP - v_hold))
    as [peaks_P [-> [Hp1 [Hp2 Hp3]]]]; [lia|].
  destruct (np_max_spec EPSC) as [mC [Em _]].
  { intro E. rewrite E in HlC. discriminate HlC. }
  cbn [bind]. rewrite Em. cbn [bind].
  destruct (set_item_spec (peak_EPSCs out) i mC)
    as [peaks_C [-> [Hc1 [Hc2 Hc3]]]]; [lia|].
  cbn [bind]. eexists. exists mP, mC. split; [reflexivity|].
  cbn [EPSPs EPSCs peak_EPSPs peak_EPSCs].
  assert (Hclock : forall k t, nth_error t_ k = Some t ->
                     (k < sim_length)%nat /\ t = clock_t k * 1000).
  { intros k t Ht.
    assert (Hk : (k < sim_length)%nat)
      by (rewrite <- Hlt; apply nth_error_Some; congruence).
    split; [exact Hk|]. rewrite (Htime k Hk) in Ht. congruence. }
  split; [|split; [exact HP2|split; [exact HC2|split; [exact Hp2|
           split; [exact Hc2|split; [|split; [reflexivity|]]]]]]].
  - unfold shaped. cbn [EPSPs EPSCs peak_EPSPs peak_EPSCs].
    repeat split; try congruence.
    + intros j row Hj. destruct (Nat.eq_dec j i) as [->|Hne].
      * rewrite HP2 in Hj. congruence.
      * rewrite (HP3 j Hne) in Hj. exact (HwP j row Hj).
    + intros j row Hj. destruct (Nat.eq_dec j i) as [->|Hne].
      * rewrite HC2 in Hj. congruence.
      * rewrite (HC3 j Hne) in Hj. exact (HwC j row Hj).
  - split.
    + destruct HmP as [k [t [Ht [H1 [H2 Hk]]]]].
      destruct (Hclock k t Ht) as [_ ->].
      exists k. split; [|exact Hk].
      apply in_window_clock, in_window_iff. now split.
    + intros k x Hk Hx. apply HubP.
      exists k, (clock_t k * 1000).
      split; [apply Htime; unfold sim_length; lia|].
      assert (Hw : 250 < clock_t k * 1000 /\ clock_t k * 1000 < 350)
        by (apply in_window_iff, in_window_clock; exact Hk).
      tauto.
  - intros j Hj. repeat split; auto.
Qed.
End Stored.

Section StoredLoop.
Context `{Brian2}.

Lemma trial_EPSP_any (weight : Q) (g1 g2 : world) :
  trial_EPSP weight g1 = trial_EPSP weight g2.
Proof.
  unfold trial_EPSP. now rewrite (recording_any weight (Some i_hold) g1 g2).
Qed.

Lemma trials_full (n : nat) (weights : list Q) :
  forall (i : nat) (out : results) (g : world),
  shaped n out -> (i + List.length weights <= n)%nat ->
  exists out' g',
    trials i weights out g = Ok (out', g') /\
    shaped n out' /\
    (forall j, (j < i)%nat \/ (i + List.length weights <= j)%nat ->
       nth_error (EPSPs out') j = nth_error (EPSPs out) j /\
       nth_error (EPSCs out') j = nth_error (EPSCs out) j /\
       nth_error (peak_EPSPs out') j = nth_error (peak_EPSPs out) j /\
       nth_error (peak_EPSCs out') j = nth_error (peak_EPSCs out) j) /\
    forall j weight, nth_error weights j = Some weight ->
      stored out' (i + j) weight g.
Proof.
  induction weights as [|weight rest IH]; intros i out g Hsh Hlen.
  - exists out, g. split; [reflexivity|]. split; [exact Hsh|].
    split; [intros j _; repeat split|].
    intros [|j] weight Hj; discriminate Hj.
  - cbn [List.length] in Hlen. cbn [trials].
    destruct (trial_full n i weight out g Hsh) as
      [out1 [mP [mC [-> [Hsh1 [HrP [HrC [HpP [HpC [HwP [HmC Hother]]]]]]]]]]];
      [lia|].
    cbn [bind fst snd].
    destruct (IH (S i) out1
                (snd (sym_paired_recording weight (Some i_hold) g)) Hsh1)
      as [out' [g' [-> [Hsh' [Hkeep Hnew]]]]]; [lia|].
    exists out', g'. split; [reflexivity|]. split; [exact Hsh'|]. split.
    + intros j Hj. cbn [List.length] in Hj.
      destruct (Hkeep j) as [-> [-> [-> ->]]]; [lia|].
      apply Hother. lia.
    + intros [|j] w' Hj.
      * injection Hj as <-. rewrite Nat.add_0_r.
        destruct (Hkeep i) as [E1 [E2 [E3 E4]]]; [lia|].
        exists mP, mC. rewrite E1, E2, E3, E4.
        exact (conj HrP (conj HrC (conj HpP (conj HpC (conj HwP HmC))))).
      * destruct (Hnew j w' Hj) as [mP' [mC' Hst]].
        rewrite Nat.add_succ_r. exists mP', mC'.
        rewrite (trial_EPSP_any w' g
                   (snd (sym_paired_recording weight (Some i_hold) g))).
        rewrite (trial_EPSC_any w' g
                   (snd (sym_paired_recording weight (Some i_hold) g))).
        exact Hst.
Qed.

(** X13: the loop over the weights completes, and for every trial the peak
    EPSP stored for it is the largest sample among the rows 2501 to 3499 of
    the EPSP trace stored for that trial, minus the holding voltage -70. *)
Theorem peak_EPSP_is_window_maximum (weights : list Q) (g : world) :
  exists out g',
    (out0 <- allocate (Z.of_nat (List.length weights)) ;;
     trials 0 weights out0 g) = Ok (out, g') /\
    forall i weight, nth_error weights i = Some weight ->
      exists m,
        nth_error (peak_EPSPs out) i = Some (m - -70) /\
        nth_error (EPSPs out) i = Some (trial_EPSP weight g) /\
        window_peak (trial_EPSP weight g) m.
Proof.
  destruct (allocate_shaped (List.length weights)) as [out0 [-> Hsh]].
  cbn [bind].
  destruct (trials_full (List.length weights) weights 0 out0 g Hsh)
    as [out [g' [E [_ [_ Hnew]]]]]; [lia|].
  exists out, g'. split; [exact E|].
  intros i weight Hi.
  destruct (Hnew i weight Hi) as [mP [mC [E1 [_ [E3 [_ [Hw _]]]]]]].
  change (0 + i)%nat with i in E1, E3. exists mP.
  exact (conj E3 (conj E1 Hw)).
Qed.

(** X14: a trial writes only its own row and its own peaks: running the
    loop for the trials [i], [i+1], ... leaves every row and peak outside
    that range as it was, and keeps the shape of the arrays. *)
Theorem trials_write_own_rows (n i : nat) (weights : list Q) (out : results)
  (g : world) :
  shaped n out -> (i + List.length weights <= n)%nat ->
  exists out' g',
    trials i weights out g = Ok (out', g') /\
    shaped n out' /\
    forall j, (j < i)%nat \/ (i + List.length weights <= j)%nat ->
      nth_error (EPSPs out') j = nth_error (EPSPs out) j /\
      nth_error (EPSCs out') j = nth_error (EPSCs out) j /\
      nth_error (peak_EPSPs out') j = nth_error (peak_EPSPs out) j /\
      nth_error (peak_EPSCs out') j = nth_error (peak_EPSCs out) j.
Proof.
  intros Hsh Hlen.
  destruct (trials_full n weights i out g Hsh Hlen)
    as [out' [g' [E [Hsh' [Hkeep _]]]]].
  exists out', g'. exact (conj E (conj Hsh' Hkeep)).
Qed.
End StoredLoop.

Lemma trials_write_own_rows_example :
  exists out0,
    allocate (Z.of_nat 3) = Ok out0 /\
    exists out' g',
      trials 1 [1.5; 0.5] out0 some_world = Ok (out', g') /\
      shaped 3 out' /\
      forall j, (j < 1)%nat \/ (3 <= j)%nat ->
        nth_error (EPSPs out') j = nth_error (EPSPs out0) j /\
        nth_error (EPSCs out') j = nth_error (EPSCs out0) j /\
        nth_error (peak_EPSPs out') j = nth_error (peak_EPSPs out0) j /\
        nth_error (peak_EPSCs out') j = nth_error (peak_EPSCs out0) j.
Proof.
  destruct (allocate_shaped 3) as [out0 [E Hsh]].
  exists out0. split; [exact E|].
  apply (trials_write_own_rows 3 1 [1.5; 0.5] out0 some_world Hsh).
  simpl. lia.
Defined.

Section Results.
Context `{Brian2}.

(** X15: when the matrix has a non-zero weight and the number of weights
    asked for does not exceed their number, the script runs to its plots:
    row [i] of EPSPs and of EPSCs is the trace recorded for the [i]-th
    sampled weight, with its two peaks, and the last traces are those
    recorded for the mean of the non-zero weights.  None of them depends on
    the state the generators are in when the trials begin. *)
Theorem main_results (int : string -> result Z) (argv : list string)
  (loaded : matrix) (g : world) :
  (0 < List.length (nonzero_weights (to_nS loaded)))%nat ->
  (0 <= number_of_weights int argv
   <= Z.of_nat (List.length (nonzero_weights (to_nS loaded))))%Z ->
  exists weights g1 out avg g',
    sample_weights (to_nS loaded) (number_of_weights int argv) g
    = Ok (weights, g1) /\
    main int argv loaded g = Ok (out, avg, g') /\
    shaped (Z.to_nat (number_of_weights int argv)) out /\
    (forall i weight, nth_error weights i = Some weight ->
       stored out i weight g) /\
    avg = fst (sym_paired_recording (np_mean (nonzero_weights (to_nS loaded)))
                 (Some i_hold) g).
Proof.
  intros Hpop Hn. unfold main. cbv zeta.
  set (n := number_of_weights int argv) in *.
  unfold sample_weights, np_random_choice.
  destruct (choice_positions_spec (List.length (nonzero_weights (to_nS loaded)))
              n (np_random_seed 12345 g) Hpop Hn) as [perm [g1 [-> Hperm]]].
  cbn [bind fst snd].
  set (weights := map (fun i => nth i (nonzero_weights (to_nS loaded)) 0)
                    (firstn (Z.to_nat n) perm)).
  destruct (allocate_shaped (Z.to_nat n)) as [out0 [Ea Hsh]].
  rewrite Z2Nat.id in Ea by lia. rewrite Ea. cbn [bind].
  destruct (trials_full (Z.to_nat n) weights 0 out0 g1 Hsh)
    as [out [g2 [-> [Hsh' [_ Hnew]]]]].
  { unfold weights. rewrite length_map, length_firstn. lia. }
  cbn [bind fst snd].
  pose proof (recording_any (np_mean (nonzero_weights (to_nS loaded)))
                (Some i_hold) g2 g) as Eavg.
  destruct (sym_paired_recording (np_mean (nonzero_weights (to_nS loaded)))
              (Some i_hold) g2) as [avg g3].
  exists weights, g1, out, avg, g3.
  split; [reflexivity|]. split; [reflexivity|]. split; [exact Hsh'|].
  split.
  - intros i weight Hi. destruct (Hnew i weight Hi) as [mP [mC Hst]].
    change (0 + i)%nat with i in Hst. exists mP, mC.
    rewrite (trial_EPSP_any weight g g1), (trial_EPSC_any weight g g1).
    exact Hst.
  - rewrite <- Eavg. reflexivity.
Qed.
End Results.

Lemma main_results_example :
  exists weights g1 out avg g',
    sample_weights (to_nS small_wmx)
      (number_of_weights py_int ["analyse_EPS.py"; "3"]%string) some_world
    = Ok (weights, g1) /\
    main py_int ["analyse_EPS.py"; "3"]%string small_wmx some_world
    = Ok (out, avg, g') /\
    shaped (Z.to_nat (number_of_weights py_int ["analyse_EPS.py"; "3"]%string))
      out /\
    (forall i weight, nth_error weights i = Some weight ->
       stored out i weight some_world) /\
    avg = fst (sym_paired_recording
                 (np_mean (nonzero_weights (to_nS small_wmx)))
                 (Some i_hold) some_world).
Proof.
  apply (main_results py_int ["analyse_EPS.py"; "3"]%string small_wmx
           some_world).
  - vm_compute. lia.
  - vm_compute. split; discriminate.
Defined.

(** ** Peak extraction on a recording *)

Lemma clamped_peak_rows (t_ EPSP : list Q) (i v : Q) :
  List.length t_ = sim_length -> List.length EPSP = sim_length ->
  (forall k, (k < sim_length)%nat -> nth_error t_ k = Some (clock_t k * 1000)) ->
  nonzero i = true -> nonzero v = true ->
  exists m,
    get_peak_EPSP t_ EPSP (Some i) (Some v) = Ok (m - v) /\
    window_peak EPSP m.
Proof.
  intros Hlt HlP Htime Hi Hv.
  destruct (clamped_peak t_ EPSP i v Hi Hv) as [m [E [Hm Hub]]];
    [congruence| |].
  { exists 3000%nat, (clock_t 3000 * 1000).
    split; [apply Htime; unfold sim_length; lia|].
    apply in_window_iff, in_window_clock. lia. }
  exists m. split; [exact E|]. split.
  - destruct Hm as [k [t [Ht [H1 [H2 Hk]]]]].
    assert (Hlen : (k < sim_length)%nat)
      by (rewrite <- Hlt; apply nth_error_Some; congruence).
    rewrite (Htime k Hlen) in Ht. injection Ht as <-.
    exists k. split; [|exact Hk].
    apply in_window_clock, in_window_iff. now split.
  - intros k x Hk Hx. apply Hub.
    exists k, (clock_t k * 1000).
    split; [apply Htime; unfold sim_length; lia|].
    assert (Hw : 250 < clock_t k * 1000 /\ clock_t k * 1000 < 350)
      by (apply in_window_iff, in_window_clock; exact Hk).
    tauto.
Qed.

Section PeakOfRecording.
Context `{Brian2}.

(** X16: on the time axis and the EPSP trace of any recording, the peak
    extraction with a non-zero holding current and a non-zero holding
    voltage returns the largest sample among the rows 2501 to 3499 minus
    the holding voltage, and the peak extraction with neither raises
    NameError. *)
Theorem peak_of_recording (weight : Q) (i_rec : option Q) (g : world)
  (i v : Q) :
  let '(t_, EPSP, _, _) := sym_paired_recording weight i_rec g in
  (nonzero i = true -> nonzero v = true ->
   exists m,
     get_peak_EPSP t_ EPSP (Some i) (Some v) = Ok (m - v) /\
     window_peak EPSP m) /\
  get_peak_EPSP t_ EPSP None None = Raise NameError.
Proof.
  pose proof (recording_shape weight i_rec g) as Hshape.
  destruct (sym_paired_recording weight i_rec g) as [[[t_ EPSP] EPSC] g'].
  destruct Hshape as [Hlt [HlP [_ Htime]]]. split.
  - intros Hi Hv. exact (clamped_peak_rows t_ EPSP i v Hlt HlP Htime Hi Hv).
  - unfold get_peak_EPSP. cbn [truthy is_None assert bind].
    destruct EPSP as [|x xs]; [discriminate HlP|reflexivity].
Qed.
End PeakOfRecording.

Lemma peak_of_recording_example :
  let '(t_, EPSP, _, _) := sym_paired_recording 1.5 None some_world in
  exists m,
    get_peak_EPSP t_ EPSP (Some i_hold) (Some v_hold) = Ok (m - v_hold) /\
    window_peak EPSP m.
Proof.
  pose proof (peak_of_recording 1.5 None some_world i_hold v_hold) as P.
  destruct (sym_paired_recording 1.5 None some_world) as [[[t_ EPSP] EPSC] g'].
  apply (proj1 P); reflexivity.
Defined.

(** ** The remaining outcomes *)

(** X17: the call raises NameError exactly when no holding current is given
    and the trace is not empty, whatever the holding voltage; and it never
    raises TypeError: the subtraction is reached only with a holding voltage
    that is a number. *)
Theorem get_peak_EPSP_NameError_iff (t_ EPSP : list Q) (i v : option Q) :
  (get_peak_EPSP t_ EPSP i v = Raise NameError <-> i = None /\ EPSP <> []) /\
  get_peak_EPSP t_ EPSP i v <> Raise TypeError.
Proof.
  destruct (truthy i) eqn:Hi.
  - assert (Hclamped : forall e, e <> AssertionError -> e <> ValueError ->
                         e <> IndexError ->
                         get_peak_EPSP t_ EPSP i v <> Raise e).
    { intros e H1 H2 H3. destruct (truthy v) eqn:Hv.
      - destruct (clamped_unfold t_ EPSP i v Hi Hv) as [x [_ ->]].
        destruct (take_at EPSP (np_where (map in_window t_))) as [sel|e']
          eqn:Es.
        + cbn [bind]. destruct sel; cbn; congruence.
        + apply take_at_Raise in Es. subst e'. cbn. congruence.
      - unfold get_peak_EPSP. rewrite Hi, Hv. cbn. congruence. }
    split; [|apply Hclamped; discriminate].
    split.
    + intro E. exfalso. revert E. apply Hclamped; discriminate.
    + intros [-> _]. discriminate Hi.
  - rewrite (unclamped_unfold t_ EPSP i v Hi).
    destruct i as [x|]; [split; [|discriminate]|].
    + split; [discriminate|]. intros [E _]. discriminate E.
    + destruct EPSP as [|y ys]; cbn.
      * split; [|discriminate]. split; [discriminate|].
        intros [_ E]. now destruct E.
      * split; [|discriminate]. split; [|reflexivity].
        intros _. split; [reflexivity|discriminate].
Qed.

Section Negative.
Context `{Brian2}.

(** X18: a negative number of weights on the command line is taken as it
    is given, and the script stops with ValueError before any trial. *)
Theorem main_negative (int : string -> result Z) (argv : list string)
  (loaded : matrix) (g : world) :
  (number_of_weights int argv < 0)%Z ->
  main int argv loaded g = Raise ValueError.
Proof.
  intro Hn. unfold main, sample_weights, np_random_choice, choice_positions.
  cbv zeta.
  destruct (Z.ltb_spec (number_of_weights int argv) 0); [reflexivity|lia].
Qed.
End Negative.

Lemma main_negative_example :
  main py_int ["analyse_EPS.py"; "-5"]%string small_wmx some_world
  = Raise ValueError.
Proof.
  apply (main_negative py_int ["analyse_EPS.py"; "-5"]%string small_wmx
           some_world).
  vm_compute. reflexivity.
Defined.
